(** * IM@S news notification plugin: change detection, retention and media
    reconciliation

    A shallow embedding of [main.py] (class [ImasNewsPlugin]).  The plugin
    object's two caches, the cache file and the image directory form one
    explicit state that every method threads; what the outside world answers
    (the rendered page, HTTP replies, file-system errors, the interpreter's
    string hash) enters as arguments. *)

From Stdlib Require Import ZArith String Ascii List.
From Stdlib Require Import Strings.Byte.
From stdpp Require Import base option list gmap sets strings pretty.

Local Open Scope Z_scope.
Local Open Scope string_scope.

(** ** Python helpers *)

Module Py.

(** [s.startswith(p)] *)
Definition startswith (s p : string) : bool := String.prefix p s.

(** Truth value of a [str]: only the empty string is falsy. *)
Definition truthy (s : string) : bool :=
  match s with
  | EmptyString => false
  | String _ _ => true
  end.

(** [a or b] where [a] may be [None] (modelled by [option]) and [b] is a
    string. *)
Definition or_ (a : option string) (b : string) : string :=
  match a with
  | Some s => if truthy s then s else b
  | None => b
  end.

(** [d.get(key, dflt)] on an attribute that may be missing. *)
Definition get (a : option string) (dflt : string) : string := default dflt a.

(** The line feed of the f-strings. *)
Definition nl : string := String "010"%char EmptyString.

(** [f"{n}"] for an [int]: its decimal digits. *)
Definition str_of_int (n : Z) : string := pretty n.

(** [os.path.join(a, b)] of [posixpath]. *)
Definition path_join (a b : string) : string :=
  if startswith b "/" then b
  else if negb (truthy a) || String.prefix "/" (String.rev a) then a +:+ b
  else a +:+ "/" +:+ b.

End Py.

(** ** Items *)

(** The dict appended to [news_items] in [_get_latest_news]. *)
Record Item : Type := mkItem {
  news_id : string;   (* 'id' *)
  title : string;     (* 'title' *)
  date : string;      (* 'date' *)
  url : string;       (* 'url' *)
  img_url : string    (* 'img_url' *)
}.

Global Instance Item_eq_dec : EqDecision Item.
Proof. solve_decision. Defined.

(** ** Extractor: [_get_latest_news] *)

Module Extractor.

Definition IMAS_ORIGIN : string := "https://idolmaster-official.jp".

(** What [_get_latest_news] reads off one card [div]. *)
Record img_tag : Type := mkImg {
  src : option string;        (* img_elem.get('src') *)
  data_src : option string    (* img_elem.get('data-src') *)
}.

Record title_link_tag : Type := mkTitleLink {
  link_text : string;         (* title_link.get_text(strip=True) *)
  href : option string        (* title_link.get('href') *)
}.

Record article : Type := mkArticle {
  title_link : option title_link_tag;  (* a.style_title_link__FM_4I *)
  date_elem : option string;           (* text of <time> / p[class~date] *)
  img_link : option (option img_tag)   (* a.style_thumb_link__emQuk, its <img> *)
}.

(** Lines 233-235: the detail URL. *)
Definition resolve_news_url (href : string) : string :=
  if Py.truthy href && negb (Py.startswith href "http")
  then IMAS_ORIGIN +:+ href
  else href.

(** Lines 250-255: the media URL. *)
Definition resolve_img_url (raw : string) : string :=
  if Py.truthy raw && negb (Py.startswith raw "http")
  then if Py.startswith raw "//"
       then "https:" +:+ raw
       else IMAS_ORIGIN +:+ raw
  else raw.

(** Body of the [for article in articles[:10]] loop; [None] is the
    [continue] taken when the title link is missing. *)
Definition parse_article (a : article) : option Item :=
  match title_link a with
  | None => None
  | Some tl =>
      let title := link_text tl in
      let news_url := resolve_news_url (Py.get (href tl) "") in
      let news_id := news_url in
      let date := default "" (date_elem a) in
      let img_url :=
        match img_link a with
        | Some (Some img_elem) =>
            resolve_img_url (Py.or_ (src img_elem) (Py.get (data_src img_elem) ""))
        | _ => ""
        end in
      Some (mkItem news_id title date news_url img_url)
  end.

(** [_get_latest_news]: [page] is [None] when the renderer returned no HTML,
    otherwise the card elements found by [soup.find_all]. *)
Definition _get_latest_news (page : option (list article)) : list Item :=
  match page with
  | None => []
  | Some articles =>
      match articles with
      | [] => []
      | _ => omap parse_article (take 10 articles)
      end
  end.

End Extractor.

(** ** The plugin object and the disk *)

(** A successfully parsed [cache.json]: [data.get(key, [])] may miss a key. *)
Record cache_json : Type := mkJson {
  json_idx_cache : option (list string);
  json_item_cache : option (list Item)
}.

(** [cache.json] as [_load_cache] meets it. *)
Inductive cache_file_state : Type :=
| NoFile                      (* os.path.exists(cache_file) is False *)
| Unreadable                  (* open / json.load raises *)
| Json (data : cache_json).

Record State : Type := mkState {
  idx_cache : gset string;               (* self.idx_cache *)
  item_cache : list Item;                (* self.item_cache *)
  cache_file : cache_file_state;         (* <cache_dir>/cache.json *)
  img_files : gmap string (list byte)    (* <img_dir>: file name -> content *)
}.

Definition set_idx_cache (v : gset string) (st : State) : State :=
  mkState v (item_cache st) (cache_file st) (img_files st).
Definition set_item_cache (v : list Item) (st : State) : State :=
  mkState (idx_cache st) v (cache_file st) (img_files st).
Definition set_cache_file (v : cache_file_state) (st : State) : State :=
  mkState (idx_cache st) (item_cache st) v (img_files st).
Definition set_img_files (v : gmap string (list byte)) (st : State) : State :=
  mkState (idx_cache st) (item_cache st) (cache_file st) v.

(** [__init__]: both caches start empty; the disk is whatever a previous run
    left. *)
Definition __init__ (st : State) : State :=
  mkState ∅ [] (cache_file st) (img_files st).

(** The state of a first installation. *)
Definition fresh : State := mkState ∅ [] NoFile ∅.

(** ** A state monad for the methods *)

Definition M (A : Type) : Type := State -> A * State.

Definition ret {A} (a : A) : M A := fun st => (a, st).
Definition bind {A B} (m : M A) (k : A -> M B) : M B :=
  fun st => let '(a, st') := m st in k a st'.
Definition get_state : M State := fun st => (st, st).
Definition modify (f : State -> State) : M unit := fun st => (tt, f st).

Declare Scope plugin_scope.
Delimit Scope plugin_scope with plugin.
Notation "'let*' x ':=' m 'in' k" := (bind m (fun x => k))
  (at level 10, x name, m at level 100, k at level 200) : plugin_scope.
Notation "'do' m 'then' k" := (bind m (fun _ => k))
  (at level 10, m at level 100, k at level 200) : plugin_scope.
Local Open Scope plugin_scope.

(** [for x in xs: body(x)] *)
Fixpoint for_each {A} (xs : list A) (body : A -> M unit) : M unit :=
  match xs with
  | [] => ret tt
  | x :: xs' => do body x then for_each xs' body
  end.

(** ** Dedup cache: [_load_cache], [_save_cache], [_check_update] *)

(** How the [try] block of [_save_cache] ends. *)
Inductive save_outcome : Type :=
| SaveOk
| SaveOpenRaises      (* open(..., 'w') raised: the file is as before *)
| SaveDumpRaises.     (* json.dump raised after the file was truncated *)

Definition _load_cache : M unit :=
  let* st := get_state in
  match cache_file st with
  | NoFile => ret tt
  | Unreadable => ret tt
  | Json data =>
      do modify (set_idx_cache (list_to_set (default [] (json_idx_cache data)))) then
      modify (set_item_cache (default [] (json_item_cache data)))
  end.

Definition _save_cache (o : save_outcome) : M unit :=
  let* st := get_state in
  match o with
  | SaveOk =>
      modify (set_cache_file
                (Json (mkJson (Some (elements (idx_cache st)))
                              (Some (item_cache st)))))
  | SaveOpenRaises => ret tt
  | SaveDumpRaises => modify (set_cache_file Unreadable)
  end.

(** A novel item: its id is absent from [idx_cache]. *)
Definition novel (idx : gset string) (news : Item) : Prop := news_id news ∉ idx.

Global Instance novel_dec idx news : Decision (novel idx news).
Proof. unfold novel. apply _. Defined.

(** Lines 284-287: the loop that collects [new_items]. *)
Definition collect_new (idx : gset string) (news_list : list Item) : list Item :=
  foldl (fun new_items news =>
           if decide (news_id news ∉ idx) then (new_items ++ [news])%list else new_items)
        [] news_list.

(** Line 291: [self.idx_cache.update(item['id'] for item in news_list)]. *)
Definition idx_update (idx : gset string) (news_list : list Item) : gset string :=
  foldl (fun s item => s ∪ {[ news_id item ]}) idx news_list.

(** [_check_update]; [news_list] is what [_get_latest_news] returned. *)
Definition _check_update (news_list : list Item) (o : save_outcome)
  : M (list Item) :=
  match news_list with
  | [] => ret []
  | _ =>
      let* st := get_state in
      let new_items := collect_new (idx_cache st) news_list in
      match new_items with
      | [] => ret new_items
      | _ =>
          do modify (set_idx_cache (idx_update (idx_cache st) news_list)) then
          do modify (set_item_cache (take 5 news_list)) then
          do _save_cache o then
          ret new_items
      end
  end.

(** ** Message components ([astrbot.api.message_components]) *)

Inductive Comp : Type :=
| Plain (text : string)
| Image (file : string).

Global Instance Comp_eq_dec : EqDecision Comp.
Proof. solve_decision. Defined.

(** What the push loop of [_check_news_update] produces per item: the chain
    built by [_format_news] and the title of its log line. *)
Record notification : Type := mkNotification {
  pushed_title : string;
  message_chain : list Comp
}.

(** ** What the outside world answers to one download *)

Inductive get_result : Type :=
| GetRaises                                        (* timeout, connection error *)
| GetResponse (status_code : Z) (content : list byte).

Inductive write_result : Type :=
| OpenRaises                                       (* open(save_path, 'wb') raised *)
| WriteRaises (written : list byte)                (* f.write raised, file exists *)
| WriteOk.

Record download_io : Type := mkIo {
  client_get : string -> get_result;     (* client.get(url, timeout=30) *)
  file_write : string -> write_result    (* with open(save_path, 'wb') ... *)
}.

Section Runtime.

(** The interpreter's [hash] on [str] in the running process, the image
    directory, and whether [import httpx] succeeded. *)
Variable hash : string -> Z.
Variable img_dir : string.
Variable HTTPX_AVAILABLE : bool.

(** ** Media fetcher: [_download_image] *)

Definition _download_image (io : download_io) (url save_name : string) : M bool :=
  if negb HTTPX_AVAILABLE then ret false
  else
    let save_path := Py.path_join img_dir save_name in
    match client_get io url with
    | GetRaises => ret false
    | GetResponse status_code content =>
        if (status_code =? 200)%Z then
          match file_write io save_path with
          | OpenRaises => ret false
          | WriteRaises written =>
              do modify (fun st => set_img_files (<[save_name := written]> (img_files st)) st) then
              ret false
          | WriteOk =>
              do modify (fun st => set_img_files (<[save_name := content]> (img_files st)) st) then
              ret true
          end
        else ret false
    end.

(** ** Payload assembly: [_format_news] *)

(** [f"{abs(hash(news_item['id']))}.jpg"], lines 311 and 362. *)
Definition img_name_of (item : Item) : string :=
  Py.str_of_int (Z.abs (hash (news_id item))) +:+ ".jpg".

Definition _format_news (io : download_io) (news_item : Item) : M (list Comp) :=
  let message_chain : list Comp := [] in
  let message_chain :=
    if Py.truthy (date news_item)
    then (message_chain ++ [Plain ("【" +:+ date news_item +:+ "】" +:+ Py.nl)])%list
    else message_chain in
  let message_chain :=
    (message_chain ++ [Plain (title news_item +:+ Py.nl)])%list in
  let* message_chain :=
    (if Py.truthy (img_url news_item) then
       let img_name := img_name_of news_item in
       let img_path := Py.path_join img_dir img_name in
       let* success := _download_image io (img_url news_item) img_name in
       ret (if success : bool
            then (message_chain ++ [Image img_path; Plain Py.nl])%list
            else message_chain)
     else ret message_chain) in
  ret (message_chain ++ [Plain ("▲" +:+ url news_item)])%list.

(** ** Janitor: [_cleanup_images] *)

(** [os_remove path] tells whether [os.remove(path)] succeeds. *)
Definition _cleanup_images (os_remove : string -> bool) : M unit :=
  let* st := get_state in
  let existing_files : gset string := dom (img_files st) in
  let cached_files : gset string := list_to_set (img_name_of <$> item_cache st) in
  let to_delete := existing_files ∖ cached_files in
  for_each (elements to_delete) (fun filename =>
    if os_remove (Py.path_join img_dir filename)
    then modify (fun st => set_img_files (delete filename (img_files st)) st)
    else ret tt).

(** ** Poll cycle: [_check_news_update] *)

(** Lines 343-350: [for item in reversed(new_items)], fed the already
    reversed list; [io i] is the world at the [i]-th iteration. *)
Fixpoint push_loop (io : nat -> download_io) (i : nat) (items : list Item)
  : M (list notification) :=
  match items with
  | [] => ret []
  | item :: rest =>
      let* message_chain := _format_news (io i) item in
      let* sent := push_loop io (S i) rest in
      ret (mkNotification (title item) message_chain :: sent)
  end.

Definition _check_news_update (news_list : list Item) (o : save_outcome)
    (io : nat -> download_io) (os_remove : string -> bool)
  : M (list notification) :=
  let* st := get_state in
  if decide (idx_cache st = ∅) then
    do _check_update news_list o then
    ret []
  else
    let* new_items := _check_update news_list o in
    match new_items with
    | [] => ret []
    | _ =>
        let* sent := push_loop io 0 (rev new_items) in
        do _cleanup_images os_remove then
        ret sent
    end.

(** ** Life of the plugin *)

(** The calls that touch the caches, with what the world answers to each. *)
Inductive event : Type :=
| EvInit                                     (* a new process: __init__ *)
| EvLoad                                     (* initialize: _load_cache *)
| EvSave (o : save_outcome)                  (* terminate: _save_cache *)
| EvCheckUpdate (news_list : list Item) (o : save_outcome)
                                             (* send_imas_news: _check_update *)
| EvCycle (news_list : list Item) (o : save_outcome)
          (io : nat -> download_io) (os_remove : string -> bool).
                                             (* scheduler: _check_news_update *)

Definition step (st : State) (ev : event) : State :=
  match ev with
  | EvInit => __init__ st
  | EvLoad => (_load_cache st).2
  | EvSave o => (_save_cache o st).2
  | EvCheckUpdate news_list o => (_check_update news_list o st).2
  | EvCycle news_list o io os_remove =>
      (_check_news_update news_list o io os_remove st).2
  end.

Definition run (st : State) (evs : list event) : State := foldl step st evs.

(** The candidate batches fetched along a history. *)
Definition fetched (evs : list event) : list (list Item) :=
  omap (fun ev => match ev with
                  | EvCheckUpdate news_list _ => Some news_list
                  | EvCycle news_list _ _ _ => Some news_list
                  | _ => None
                  end) evs.

End Runtime.

(** ** Shapes of a payload *)

Section Payload.

Variable hash : string -> Z.
Variable img_dir : string.

(** The date line (when the item has one) and the title line. *)
Definition text_chain (item : Item) : list Comp :=
  ((if Py.truthy (date item)
    then [Plain ("【" +:+ date item +:+ "】" +:+ Py.nl)]
    else []) ++ [Plain (title item +:+ Py.nl)])%list.

Definition link_comp (item : Item) : Comp := Plain ("▲" +:+ url item).

(** Date, title and link; no media path. *)
Definition payload_without_media (item : Item) : list Comp :=
  (text_chain item ++ [link_comp item])%list.

(** Date, title, the local image and the link. *)
Definition payload_with_media (item : Item) : list Comp :=
  (text_chain item
     ++ [Image (Py.path_join img_dir (img_name_of hash item)); Plain Py.nl]
     ++ [link_comp item])%list.

(** [n] is a notification for [item]. *)
Definition pushed_for (item : Item) (n : notification) : Prop :=
  pushed_title n = title item ∧
  (message_chain n = payload_without_media item ∨
   message_chain n = payload_with_media item).

End Payload.

(** ** Ways a download fails *)

(** The one failure of [_download_image] that happens after the file was
    opened: the server answered 200 and the write raised. *)
Definition write_interrupted (HTTPX_AVAILABLE : bool) (io : download_io)
    (url save_path : string) : Prop :=
  HTTPX_AVAILABLE = true ∧
  ∃ content written,
    client_get io url = GetResponse 200 content ∧
    file_write io save_path = WriteRaises written.

(** ** Where the retained items come from *)

(** The items [_load_cache] would restore from the cache file. *)
Definition file_items (f : cache_file_state) : list Item :=
  match f with
  | Json data => default [] (json_item_cache data)
  | _ => []
  end.

(** [items] is empty, or one of the lists [known] at the start, or the first
    five candidates, in their order, of one of the fetched [batches]. *)
Definition retained_source (known batches : list (list Item))
    (items : list Item) : Prop :=
  items = [] ∨ items ∈ known ∨ ∃ batch, batch ∈ batches ∧ items = take 5 batch.

(** The invariant of the retention bound: both the retained list and the
    list in the cache file have a known source. *)
Definition sourced (known batches : list (list Item)) (st : State) : Prop :=
  retained_source known batches (item_cache st) ∧
  retained_source known batches (file_items (cache_file st)).

(** Two states with the same caches and cache file. *)
Definition same_caches (st st' : State) : Prop :=
  idx_cache st' = idx_cache st ∧
  item_cache st' = item_cache st ∧
  cache_file st' = cache_file st.

(** ** Sample data *)

Module Sample.

Definition A : Item :=
  mkItem "https://idolmaster-official.jp/news/03" "T3" "2024.05.03"
         "https://idolmaster-official.jp/news/03" "https://cdn.example/3.jpg".
Definition B : Item :=
  mkItem "https://idolmaster-official.jp/news/02" "T2" ""
         "https://idolmaster-official.jp/news/02" "".
Definition C : Item :=
  mkItem "https://idolmaster-official.jp/news/01" "T1" "2024.05.01"
         "https://idolmaster-official.jp/news/01" "https://cdn.example/1.jpg".
Definition Old : Item :=
  mkItem "https://idolmaster-official.jp/news/00" "T0" "2024.04.30"
         "https://idolmaster-official.jp/news/00" "".

(** A warm plugin that has seen [Old] only. *)
Definition warm : State :=
  mkState {[ news_id Old ]} [Old] NoFile ∅.

(** A process whose string hash is the length of the string. *)
Definition len_hash (s : string) : Z := Z.of_nat (String.length s).

(** Every request times out. *)
Definition offline : download_io :=
  mkIo (fun _ => GetRaises) (fun _ => WriteOk).

(** The server answers 200 with one byte and the disk fails while
    writing. *)
Definition disk_full : download_io :=
  mkIo (fun _ => GetResponse 200 [x2a]) (fun _ => WriteRaises []).

(** [A] is retained; its image and a stale one are on disk. *)
Definition with_orphan : State :=
  mkState {[ news_id A ]} [A] NoFile
          (<[ "38.jpg" := [x2a] ]> (<[ "7.jpg" := [x2a] ]> ∅)).

(** A page of seven cards. *)
Definition numbered (n : Z) : Item :=
  mkItem ("https://idolmaster-official.jp/news/1" +:+ pretty n) "T" ""
         ("https://idolmaster-official.jp/news/1" +:+ pretty n) "".
Definition seven : list Item := numbered <$> [7; 6; 5; 4; 3; 2; 1]%Z.

(** Two runs of the plugin: a cold cycle, a manual poll of seven cards and
    a shutdown, then a restart that restores the file. *)
Definition history : list event :=
  [ EvInit; EvLoad;
    EvCycle [A; B; C] SaveOk (fun _ => offline) (fun _ => true);
    EvCheckUpdate seven SaveOk;
    EvSave SaveOk;
    EvInit; EvLoad ].

(** A card whose link and thumbnail are both protocol-relative. *)
Definition protocol_relative_card : Extractor.article :=
  Extractor.mkArticle
    (Some (Extractor.mkTitleLink "T1" (Some "//idolmaster-official.jp/news/01")))
    (Some "2024.05.01")
    (Some (Some (Extractor.mkImg (Some "//cdn.example/1.jpg") None))).

End Sample.

(** ** Manual command: [send_imas_news] *)

(** What the generator yields: [event.plain_result] or
    [event.chain_result]. *)
Inductive reply : Type :=
| PlainResult (text : string)
| ChainResult (chain : list Comp).

Section Command.

Variable hash : string -> Z.
Variable img_dir : string.
Variable HTTPX_AVAILABLE : bool.

(** Lines 389-392: [for item in self.item_cache[:3]]; [io i] is the world
    at the [i]-th iteration. *)
Fixpoint reply_loop (io : nat -> download_io) (i : nat) (items : list Item)
  : M (list reply) :=
  match items with
  | [] => ret []
  | item :: rest =>
      let* message_chain := _format_news hash img_dir HTTPX_AVAILABLE (io i) item in
      let* replies := reply_loop io (S i) rest in
      ret (ChainResult message_chain :: replies)
  end.

(** [send_imas_news]; [news_list] is what [_get_latest_news] returns if the
    command has to poll. *)
Definition send_imas_news (news_list : list Item) (o : save_outcome)
    (io : nat -> download_io) : M (list reply) :=
  let* st := get_state in
  do (match item_cache st with
      | [] => do _check_update news_list o then ret tt
      | _ => ret tt
      end) then
  let* st := get_state in
  match item_cache st with
  | [] => ret [PlainResult "暂无 IM@S 新闻"]
  | _ => reply_loop io 0 (take 3 (item_cache st))
  end.

End Command.

(** The state in which [send_imas_news] looks at [item_cache] the second
    time: after its poll if nothing was retained, unchanged otherwise. *)
Definition polled (news_list : list Item) (o : save_outcome) (st : State) : State :=
  match item_cache st with
  | [] => (_check_update news_list o st).2
  | _ => st
  end.

(** [rep] is the command's answer for [item]: the chain of [_format_news],
    with or without the image. *)
Definition reply_for (hash : string -> Z) (img_dir : string)
    (item : Item) (rep : reply) : Prop :=
  ∃ chain, rep = ChainResult chain ∧
           (chain = payload_without_media item ∨
            chain = payload_with_media hash img_dir item).

(** ** Coherence of the two caches *)

(** Every retained item is a seen one, and nothing is seen while nothing is
    retained. *)
Definition mem_coherent (idx : gset string) (items : list Item) : Prop :=
  (forall item, item ∈ items → news_id item ∈ idx) ∧ (items = [] → idx = ∅).

(** The caches in memory are coherent and so is what [_load_cache] would
    restore. *)
Definition coherent (st : State) : Prop :=
  mem_coherent (idx_cache st) (item_cache st) ∧
  match cache_file st with
  | Json data =>
      mem_coherent (list_to_set (default [] (json_idx_cache data)))
                   (default [] (json_item_cache data))
  | _ => True
  end.

(** The calls that happen inside one process, after its start-up. *)
Definition in_process (ev : event) : Prop :=
  match ev with
  | EvInit | EvLoad => False
  | _ => True
  end.

(** ** Polls that change nothing *)

(** The batch and save outcome of an event that polls the site. *)
Definition poll_of (ev : event) : option (list Item * save_outcome) :=
  match ev with
  | EvCheckUpdate news_list o => Some (news_list, o)
  | EvCycle news_list o _ _ => Some (news_list, o)
  | _ => None
  end.

(** An event of the running process that brings nothing new against [idx]:
    a save, or a poll whose candidates are all in [idx]. *)
Definition no_change (idx : gset string) (ev : event) : Prop :=
  match ev with
  | EvInit | EvLoad => False
  | EvSave _ => True
  | EvCheckUpdate news_list _ | EvCycle news_list _ _ _ =>
      forall news, news ∈ news_list → news_id news ∈ idx
  end.

(** ** More sample data *)

Module Sample2.

(** A sixth candidate whose key differs from those of the first five. *)
Definition Late : Item :=
  mkItem "https://idolmaster-official.jp/news/late" "T9" ""
         "https://idolmaster-official.jp/news/late" "https://cdn.example/9.jpg".

Definition page : list Item :=
  [Sample.A; Sample.B; Sample.C; Sample.numbered 1; Sample.numbered 2; Late].

(** Every download succeeds. *)
Definition online : download_io :=
  mkIo (fun _ => GetResponse 200 [x2a]) (fun _ => WriteOk).

(** A cache file, valid JSON, that lists six items. *)
Definition six_in_file : State :=
  mkState ∅ []
          (Json (mkJson (Some []) (Some (Sample.numbered <$> [6; 5; 4; 3; 2; 1]%Z))))
          ∅.

End Sample2.

(** * Properties *)

(** ** The two loops of [_check_update] *)

Section DedupFacts.

Implicit Types (idx : gset string) (news_list : list Item) (st : State).

Lemma collect_new_acc idx news_list (acc : list Item) :
  foldl (fun new_items news =>
           if decide (news_id news ∉ idx) then (new_items ++ [news])%list
           else new_items) acc news_list
  = (acc ++ filter (novel idx) news_list)%list.
Proof.
  revert acc. induction news_list as [|news rest IH]; intros acc; simpl.
  - by rewrite app_nil_r.
  - rewrite IH. rewrite filter_cons. unfold novel at 2.
    destruct (decide (news_id news ∉ idx)); [|done].
    by rewrite <- app_assoc.
Qed.

Lemma collect_new_filter idx news_list :
  collect_new idx news_list = filter (novel idx) news_list.
Proof. unfold collect_new. by rewrite collect_new_acc. Qed.

Lemma idx_update_union idx news_list :
  idx_update idx news_list = idx ∪ list_to_set (news_id <$> news_list).
Proof.
  unfold idx_update. revert idx.
  induction news_list as [|news rest IH]; intros idx; simpl.
  - set_solver.
  - rewrite IH. set_solver.
Qed.

Lemma collect_new_empty_idx news_list : collect_new ∅ news_list = news_list.
Proof.
  rewrite collect_new_filter. induction news_list as [|news rest IH]; [done|].
  rewrite filter_cons. destruct (decide (novel ∅ news)) as [|Hn].
  - by rewrite IH.
  - exfalso. apply Hn. unfold novel. set_solver.
Qed.

(** [_check_update] in closed form. *)
Lemma check_update_unfold news_list o st :
  _check_update news_list o st =
    let new_items := filter (novel (idx_cache st)) news_list in
    match new_items with
    | [] => ([], st)
    | _ => (new_items,
            (_save_cache o
               (mkState (idx_cache st ∪ list_to_set (news_id <$> news_list))
                        (take 5 news_list) (cache_file st) (img_files st))).2)
    end.
Proof.
  unfold _check_update. destruct news_list as [|n rest]; [done|].
  unfold bind, get_state. rewrite collect_new_filter, idx_update_union.
  cbv zeta. destruct (filter _ (n :: rest)) as [|x xs]; [done|].
  unfold modify, set_idx_cache, set_item_cache, ret; simpl.
  by destruct (_save_cache o _).
Qed.

Lemma save_cache_frame o st :
  idx_cache (_save_cache o st).2 = idx_cache st ∧
  item_cache (_save_cache o st).2 = item_cache st ∧
  img_files (_save_cache o st).2 = img_files st.
Proof. by destruct o. Qed.

End DedupFacts.

(** ** C1, C2: the dedup diff *)

(** C1: [_check_update] returns exactly the candidates whose id is not in
    [idx_cache] at call time, in the order of the candidate batch. *)
Theorem check_update_returns_novel_in_order :
  forall (st : State) (news_list : list Item) (o : save_outcome),
    let new_items := (_check_update news_list o st).1 in
    new_items = filter (novel (idx_cache st)) news_list ∧
    (forall news, news ∈ new_items ↔ news ∈ news_list ∧ news_id news ∉ idx_cache st) ∧
    sublist new_items news_list.
Proof.
  intros st news_list o new_items.
  assert (Heq : new_items = filter (novel (idx_cache st)) news_list).
  { subst new_items. rewrite check_update_unfold. cbv zeta.
    by destruct (filter _ news_list). }
  split; [done|]. rewrite Heq. split.
  - intros news. rewrite list_elem_of_filter. unfold novel. tauto.
  - apply sublist_filter.
Qed.

(** C2: when some candidate is novel, [idx_cache] gains the id of every
    candidate of the batch and [item_cache] becomes the first five
    candidates; when none is, the state is left as it was. *)
Theorem check_update_effect :
  forall (st : State) (news_list : list Item) (o : save_outcome),
    let new_items := (_check_update news_list o st).1 in
    let st' := (_check_update news_list o st).2 in
    (new_items ≠ [] →
       idx_cache st' = idx_cache st ∪ list_to_set (news_id <$> news_list) ∧
       (forall news, news ∈ news_list → news_id news ∈ idx_cache st') ∧
       item_cache st' = take 5 news_list) ∧
    (new_items = [] → st' = st).
Proof.
  intros st news_list o new_items st'. subst new_items st'.
  rewrite check_update_unfold. cbv zeta.
  destruct (filter _ news_list) as [|x xs] eqn:Hf; simpl.
  - split; [congruence|done].
  - split; [intros _|discriminate].
    destruct (save_cache_frame o
      (mkState (idx_cache st ∪ list_to_set (news_id <$> news_list))
               (take 5 news_list) (cache_file st) (img_files st)))
      as (Hidx & Hitems & _).
    rewrite Hidx, Hitems. simpl. split; [done|]. split; [|done].
    intros news Hin. apply elem_of_union_r, elem_of_list_to_set.
    apply list_elem_of_fmap. eauto.
Qed.

Lemma check_update_effect_witness :
  item_cache (_check_update [Sample.A; Sample.Old] SaveOk Sample.warm).2
    = [Sample.A; Sample.Old] ∧
  (_check_update [Sample.Old] SaveOk Sample.warm).2 = Sample.warm.
Proof.
  split.
  - destruct (check_update_effect Sample.warm [Sample.A; Sample.Old] SaveOk)
      as [Hnovel _].
    apply Hnovel. vm_compute. discriminate.
  - destruct (check_update_effect Sample.warm [Sample.Old] SaveOk)
      as [_ Hnone].
    apply Hnone. vm_compute. reflexivity.
Defined.

(** ** C3, C4: cold start *)

Section ColdStart.

Variable hash : string -> Z.
Variable img_dir : string.
Variable HTTPX_AVAILABLE : bool.

(** With an empty [idx_cache] every candidate is novel, so a non-empty
    batch always takes the updating branch. *)
Lemma check_update_cold st news_list o :
  idx_cache st = ∅ → news_list ≠ [] →
  (_check_update news_list o st).1 = news_list ∧
  idx_cache (_check_update news_list o st).2 = list_to_set (news_id <$> news_list) ∧
  item_cache (_check_update news_list o st).2 = take 5 news_list ∧
  img_files (_check_update news_list o st).2 = img_files st.
Proof.
  intros Hidx Hne. rewrite check_update_unfold, Hidx. cbv zeta.
  rewrite <- collect_new_filter, collect_new_empty_idx.
  destruct news_list as [|n rest]; [done|].
  destruct (save_cache_frame o
    (mkState (∅ ∪ list_to_set (news_id <$> n :: rest))
             (take 5 (n :: rest)) (cache_file st) (img_files st)))
    as (Hi & Hitems & Himg).
  cbn [fst snd]. rewrite Hi, Hitems, Himg. cbn [idx_cache item_cache img_files].
  split; [done|]. split; [|done]. by rewrite (left_id_L ∅ (∪)).
Qed.

(** C3: a cycle that starts with an empty [idx_cache] and fetches a
    non-empty batch pushes nothing, and leaves [idx_cache] holding every
    candidate's id and [item_cache] holding the first five candidates. *)
Theorem cold_cycle_is_silent_and_seeds :
  forall (st : State) (news_list : list Item) (o : save_outcome)
         (io : nat -> download_io) (os_remove : string -> bool),
    idx_cache st = ∅ →
    news_list ≠ [] →
    let r := _check_news_update hash img_dir HTTPX_AVAILABLE
               news_list o io os_remove st in
    let sent := r.1 in
    let st' := r.2 in
    sent = [] ∧
    (forall news, news ∈ news_list → news_id news ∈ idx_cache st') ∧
    idx_cache st' = list_to_set (news_id <$> news_list) ∧
    item_cache st' = take 5 news_list.
Proof.
  intros st news_list o io os_remove Hidx Hne r sent st'. subst sent st' r.
  destruct (check_update_cold st news_list o Hidx Hne) as (_ & Hi & Hitems & _).
  unfold _check_news_update, bind, get_state.
  destruct (decide (idx_cache st = ∅)) as [_|Hn]; [|done].
  destruct (_check_update news_list o st) as [new_items st1]; simpl in *.
  split; [done|]. split; [|done].
  intros news Hin. rewrite Hi. apply elem_of_list_to_set, list_elem_of_fmap. eauto.
Qed.

(** C4 (as the code has it): on an empty [idx_cache], [_check_update]
    itself reports the whole batch as novel while it seeds the cache; the
    silence of the first poll is the doing of [_check_news_update], which
    drops that result. *)
Theorem check_update_cold_reports_all :
  forall (st : State) (news_list : list Item) (o : save_outcome)
         (io : nat -> download_io) (os_remove : string -> bool),
    idx_cache st = ∅ →
    news_list ≠ [] →
    (_check_update news_list o st).1 = news_list ∧
    idx_cache (_check_update news_list o st).2 = list_to_set (news_id <$> news_list) ∧
    item_cache (_check_update news_list o st).2 = take 5 news_list ∧
    (_check_news_update hash img_dir HTTPX_AVAILABLE
       news_list o io os_remove st).1 = [].
Proof.
  intros st news_list o io os_remove Hidx Hne.
  destruct (check_update_cold st news_list o Hidx Hne) as (Hr & Hi & Hitems & _).
  repeat split; try done.
  unfold _check_news_update, bind, get_state.
  destruct (decide (idx_cache st = ∅)) as [_|Hn]; [|done].
  by destruct (_check_update news_list o st).
Qed.

End ColdStart.

Lemma cold_cycle_is_silent_and_seeds_witness :
  (_check_news_update Sample.len_hash "/data/imas_news/images" true
     [Sample.A; Sample.B] SaveOk (fun _ => Sample.offline) (fun _ => true) fresh).1 = [] ∧
  item_cache
    (_check_news_update Sample.len_hash "/data/imas_news/images" true
       [Sample.A; Sample.B] SaveOk (fun _ => Sample.offline) (fun _ => true) fresh).2
    = [Sample.A; Sample.B].
Proof.
  destruct (cold_cycle_is_silent_and_seeds Sample.len_hash "/data/imas_news/images" true
              fresh [Sample.A; Sample.B] SaveOk (fun _ => Sample.offline) (fun _ => true))
    as (Hsent & _ & _ & Hitems); [reflexivity | discriminate |].
  split; [exact Hsent | exact Hitems].
Defined.

(** C4 as stated fails: on an empty [idx_cache] the diff returns the
    candidate instead of an empty list. *)
Lemma check_update_cold_not_empty :
  ¬ (forall (st : State) (news_list : list Item) (o : save_outcome),
       idx_cache st = ∅ → news_list ≠ [] →
       (_check_update news_list o st).1 = []).
Proof.
  intros H. specialize (H fresh [Sample.A] SaveOk eq_refl).
  assert (Hne : [Sample.A] ≠ []) by discriminate.
  specialize (H Hne). vm_compute in H. discriminate H.
Qed.

Lemma check_update_cold_reports_all_witness :
  (_check_update [Sample.A; Sample.B] SaveOk fresh).1 = [Sample.A; Sample.B].
Proof.
  destruct (check_update_cold_reports_all Sample.len_hash "/data/imas_news/images" true
              fresh [Sample.A; Sample.B] SaveOk (fun _ => Sample.offline) (fun _ => true))
    as (Hr & _); [reflexivity | discriminate |].
  exact Hr.
Defined.

(** ** C6: order of the pushes *)

Section PushOrder.

Variable hash : string -> Z.
Variable img_dir : string.
Variable HTTPX_AVAILABLE : bool.

(** [_format_news] in closed form: the download decides between the two
    payload shapes and is the only thing that touches the state. *)
Lemma format_news_unfold io item st :
  _format_news hash img_dir HTTPX_AVAILABLE io item st =
    if Py.truthy (img_url item) then
      let r := _download_image img_dir HTTPX_AVAILABLE io (img_url item)
                 (img_name_of hash item) st in
      (if r.1 then payload_with_media hash img_dir item
       else payload_without_media item, r.2)
    else (payload_without_media item, st).
Proof.
  unfold _format_news, payload_with_media, payload_without_media, text_chain,
    link_comp, bind, ret.
  destruct (Py.truthy (img_url item)); [|done].
  destruct (_download_image _ _ _ _ _ _) as [[|] st']; cbn [fst snd];
    by rewrite <- ?app_assoc.
Qed.

Lemma format_news_shape io item st :
  (_format_news hash img_dir HTTPX_AVAILABLE io item st).1 = payload_without_media item ∨
  (_format_news hash img_dir HTTPX_AVAILABLE io item st).1
    = payload_with_media hash img_dir item.
Proof.
  rewrite format_news_unfold. destruct (Py.truthy _); [|by left].
  cbv zeta. destruct (_download_image _ _ _ _ _ _) as [[|] st']; simpl; auto.
Qed.

(** One notification per item, in the order the loop meets them. *)
Lemma push_loop_pushes io items :
  forall i st,
    Forall2 (pushed_for hash img_dir) items
      (push_loop hash img_dir HTTPX_AVAILABLE io i items st).1.
Proof.
  induction items as [|item rest IH]; intros i st; simpl.
  - constructor.
  - unfold bind.
    pose proof (format_news_shape (io i) item st) as Hshape.
    destruct (_format_news _ _ _ (io i) item st) as [chain st1].
    specialize (IH (S i) st1).
    destruct (push_loop _ _ _ io (S i) rest st1) as [sent st2].
    simpl in *. constructor; [|done]. by split.
Qed.

Lemma for_each_fst {A} (xs : list A) body st : (for_each xs body st).1 = tt.
Proof. by destruct (for_each xs body st) as [[] ?]. Qed.

(** The warm branch of [_check_news_update] in closed form. *)
Lemma check_news_update_warm news_list o io os_remove st :
  idx_cache st ≠ ∅ →
  (_check_news_update hash img_dir HTTPX_AVAILABLE news_list o io os_remove st).1 =
    (push_loop hash img_dir HTTPX_AVAILABLE io 0
       (rev (filter (novel (idx_cache st)) news_list))
       (_check_update news_list o st).2).1.
Proof.
  intros Hwarm. unfold _check_news_update, bind, get_state.
  destruct (decide (idx_cache st = ∅)) as [|_]; [done|].
  pose proof (check_update_unfold news_list o st) as Hcu. cbv zeta in Hcu.
  destruct (filter (novel (idx_cache st)) news_list) as [|x xs] eqn:Hf.
  - rewrite Hcu. done.
  - rewrite Hcu. cbn [fst snd].
    destruct (push_loop _ _ _ io 0 (rev (x :: xs)) _) as [sent st2].
    unfold _cleanup_images, bind, get_state.
    by destruct (for_each _ _ st2).
Qed.

(** C6: on a warm cycle with novel items, the pushes are one per novel
    item, in the reverse of the order in which the diff returned them. *)
Theorem warm_cycle_pushes_oldest_first :
  forall (st : State) (news_list : list Item) (o : save_outcome)
         (io : nat -> download_io) (os_remove : string -> bool),
    idx_cache st ≠ ∅ →
    let new_items := (_check_update news_list o st).1 in
    new_items ≠ [] →
    let sent :=
      (_check_news_update hash img_dir HTTPX_AVAILABLE news_list o io os_remove st).1 in
    length sent = length new_items ∧
    Forall2 (pushed_for hash img_dir) (rev new_items) sent ∧
    pushed_title <$> sent = title <$> rev new_items.
Proof.
  intros st news_list o io os_remove Hwarm new_items Hne sent.
  assert (Hnew : new_items = filter (novel (idx_cache st)) news_list).
  { subst new_items. rewrite check_update_unfold. cbv zeta.
    by destruct (filter _ news_list). }
  assert (HF : Forall2 (pushed_for hash img_dir) (rev new_items) sent).
  { subst sent. rewrite check_news_update_warm by done. rewrite Hnew.
    apply push_loop_pushes. }
  split; [|split; [done|]].
  - apply Forall2_length in HF. by rewrite length_rev in HF.
  - clear -HF. induction HF as [|item n items ns [Ht _] _ IH]; [done|].
    rewrite !fmap_cons. by rewrite Ht, IH.
Qed.

End PushOrder.

Lemma warm_cycle_pushes_oldest_first_witness :
  pushed_title <$>
    (_check_news_update Sample.len_hash "/data/imas_news/images" true
       [Sample.A; Sample.B; Sample.C; Sample.Old] SaveOk
       (fun _ => Sample.offline) (fun _ => true) Sample.warm).1
  = [title Sample.C; title Sample.B; title Sample.A].
Proof.
  destruct (warm_cycle_pushes_oldest_first Sample.len_hash "/data/imas_news/images" true
              Sample.warm [Sample.A; Sample.B; Sample.C; Sample.Old] SaveOk
              (fun _ => Sample.offline) (fun _ => true))
    as (_ & _ & Horder).
  - vm_compute. intros H. discriminate H.
  - vm_compute. discriminate.
  - rewrite Horder. vm_compute. reflexivity.
Defined.

(** ** C7: the janitor *)

Section Janitor.

Variable hash : string -> Z.
Variable img_dir : string.

Implicit Types (st : State) (os_remove : string -> bool).

(** The deletion loop over any list of names: a name is gone exactly when
    the loop met it and [os.remove] succeeded on it; nothing else moves. *)
Lemma delete_loop os_remove (names : list string) :
  forall st,
    let st' :=
      (for_each names (fun filename =>
         if os_remove (Py.path_join img_dir filename)
         then modify (fun st => set_img_files (delete filename (img_files st)) st)
         else ret tt) st).2 in
    idx_cache st' = idx_cache st ∧
    item_cache st' = item_cache st ∧
    cache_file st' = cache_file st ∧
    forall f, img_files st' !! f =
                if decide (f ∈ names ∧ os_remove (Py.path_join img_dir f) = true)
                then None else img_files st !! f.
Proof.
  induction names as [|name rest IH]; intros st; cbn zeta.
  - repeat split; done.
  - simpl. unfold bind at 1.
    destruct (os_remove (Py.path_join img_dir name)) eqn:Hrm.
    + unfold modify at 1.
      specialize (IH (set_img_files (delete name (img_files st)) st)).
      cbn zeta in IH. destruct IH as (Hi & Hit & Hc & Hf).
      repeat split; try done. intros f. rewrite Hf. simpl.
      destruct (decide (f = name)) as [->|Hne].
      * rewrite lookup_delete_eq.
        rewrite (decide_True (P := name ∈ name :: rest ∧ _)); [|split; [left|done]].
        by destruct (decide _).
      * rewrite lookup_delete_ne by done.
        destruct (decide (f ∈ rest ∧ _)) as [[Hin Hr]|Hn].
        -- rewrite decide_True; [done|]. split; [by right|done].
        -- rewrite decide_False; [done|]. intros [Hin Hr]. apply Hn.
           split; [|done]. apply elem_of_cons in Hin as [?|?]; done.
    + unfold ret at 1. specialize (IH st). cbn zeta in IH.
      destruct IH as (Hi & Hit & Hc & Hf).
      repeat split; try done. intros f. rewrite Hf.
      destruct (decide (f ∈ rest ∧ _)) as [[Hin Hr]|Hn].
      * rewrite decide_True; [done|]. split; [by right|done].
      * rewrite decide_False; [done|]. intros [Hin Hr].
        apply elem_of_cons in Hin as [->|Hin]; [congruence|]. by apply Hn.
Qed.

(** C7: the janitor removes exactly the files of
    [existing_files - cached_files] whose [os.remove] succeeds and touches
    nothing else; when every removal succeeds, what it removed is that
    whole difference and each file left is the key of a retained item; a
    removal that fails keeps its own file only. *)
Theorem cleanup_images_reconciles :
  forall st os_remove,
    let st' := (_cleanup_images hash img_dir os_remove st).2 in
    let existing_files : gset string := dom (img_files st) in
    let cached_files : gset string :=
      list_to_set (img_name_of hash <$> item_cache st) in
    let to_delete := existing_files ∖ cached_files in
    let removed f := os_remove (Py.path_join img_dir f) in
    (idx_cache st' = idx_cache st ∧ item_cache st' = item_cache st ∧
     cache_file st' = cache_file st) ∧
    (forall f, img_files st' !! f =
                 if decide (f ∈ to_delete ∧ removed f = true)
                 then None else img_files st !! f) ∧
    ((forall f, f ∈ to_delete → removed f = true) →
       dom (img_files st) ∖ dom (img_files st') = to_delete ∧
       forall f, f ∈ dom (img_files st') →
                 ∃ item, item ∈ item_cache st' ∧ f = img_name_of hash item) ∧
    (forall f, f ∈ to_delete → removed f = false → f ∈ dom (img_files st')) ∧
    (forall f, f ∈ to_delete → removed f = true → f ∉ dom (img_files st')).
Proof.
  intros st os_remove st' existing_files cached_files to_delete removed.
  pose proof (delete_loop os_remove (elements to_delete) st) as Hloop.
  cbn zeta in Hloop. fold st' in Hloop.
  assert (Hst' : st' = (for_each (elements to_delete)
            (fun filename =>
               if os_remove (Py.path_join img_dir filename)
               then modify (fun st => set_img_files (delete filename (img_files st)) st)
               else ret tt) st).2) by done.
  rewrite <- Hst' in Hloop. destruct Hloop as (Hi & Hit & Hc & Hf).
  assert (Hlook : forall f, img_files st' !! f =
            if decide (f ∈ to_delete ∧ removed f = true)
            then None else img_files st !! f).
  { intros f. rewrite Hf.
    destruct (decide (f ∈ elements to_delete ∧ _)) as [[Hin Hr]|Hn].
    - rewrite decide_True; [done|]. split; [by apply elem_of_elements|done].
    - rewrite decide_False; [done|]. intros [Hin Hr]. apply Hn.
      split; [by apply elem_of_elements|done]. }
  assert (Hdom : forall f, f ∈ dom (img_files st') ↔
            f ∈ existing_files ∧ ¬ (f ∈ to_delete ∧ removed f = true)).
  { intros f. rewrite elem_of_dom, Hlook. subst existing_files.
    rewrite elem_of_dom. destruct (decide _) as [Hd|Hd].
    - split; [by intros [? ?]|]. by intros [_ ?].
    - tauto. }
  split; [done|]. split; [done|]. split; [|split].
  - intros Hall. split.
    + apply set_eq. intros f. rewrite elem_of_difference, Hdom.
      split.
      * intros [Hex Hn]. destruct (decide (f ∈ to_delete)) as [|Hnd]; [done|].
        exfalso. apply Hn. split; [done|]. tauto.
      * intros Hin. split; [set_solver|]. intros [_ Hn]. apply Hn.
        split; [done|by apply Hall].
    + intros f [Hex Hn]%Hdom. rewrite Hit.
      destruct (decide (f ∈ cached_files)) as [Hc'|Hnc].
      * subst cached_files. apply elem_of_list_to_set, list_elem_of_fmap in Hc'.
        destruct Hc' as (item & -> & Hin). eauto.
      * exfalso. apply Hn. assert (f ∈ to_delete) by set_solver.
        split; [done|by apply Hall].
  - intros f Hin Hrm. apply Hdom. split; [set_solver|].
    intros [_ Hr]. congruence.
  - intros f Hin Hrm [_ Hn]%Hdom. by apply Hn.
Qed.

End Janitor.

Lemma cleanup_images_reconciles_witness :
  dom (img_files Sample.with_orphan)
    ∖ dom (img_files (_cleanup_images Sample.len_hash "/data/imas_news/images"
                        (fun _ => true) Sample.with_orphan).2)
  = dom (img_files Sample.with_orphan)
      ∖ list_to_set (img_name_of Sample.len_hash <$> item_cache Sample.with_orphan) ∧
  "7.jpg" ∉ dom (img_files (_cleanup_images Sample.len_hash "/data/imas_news/images"
                              (fun _ => true) Sample.with_orphan).2).
Proof.
  destruct (cleanup_images_reconciles Sample.len_hash "/data/imas_news/images"
              Sample.with_orphan (fun _ => true))
    as (_ & _ & Hall & _ & Hgone).
  split.
  - destruct Hall as [Hremoved _]; [reflexivity|]. exact Hremoved.
  - apply Hgone; [|reflexivity].
    apply (bool_decide_unpack _). vm_compute. exact I.
Defined.

(** ** C8: a failed download *)

Section FailedDownload.

Variable hash : string -> Z.
Variable img_dir : string.
Variable HTTPX_AVAILABLE : bool.

Lemma payload_without_media_plain item file :
  Image file ∉ payload_without_media item.
Proof.
  unfold payload_without_media, text_chain, link_comp.
  destruct (Py.truthy (date item)); simpl; set_solver.
Qed.

(** [_download_image] leaves the state alone unless the write after a 200
    was interrupted. *)
Lemma download_image_frame io url save_name st :
  ¬ write_interrupted HTTPX_AVAILABLE io url (Py.path_join img_dir save_name) →
  (_download_image img_dir HTTPX_AVAILABLE io url save_name st).1 = false →
  (_download_image img_dir HTTPX_AVAILABLE io url save_name st).2 = st.
Proof.
  unfold _download_image, write_interrupted. intros Hn.
  destruct HTTPX_AVAILABLE; [|done]. simpl.
  destruct (client_get io url) as [|status_code content] eqn:Hget; [done|].
  destruct (Z.eqb_spec status_code 200) as [->|]; [|done].
  destruct (file_write io _) as [|written|] eqn:Hw; [done| |done].
  exfalso. apply Hn. eauto.
Qed.

(** C8 (as the code has it): when [_download_image] fails, the payload is
    still built and holds the date line (if any), the title and the link
    but no image; the image directory is unchanged unless the failure was
    a write interrupted after a 200 response. *)
Theorem failed_download_keeps_item :
  forall (io : download_io) (item : Item) (st : State),
    let save_name := img_name_of hash item in
    (_download_image img_dir HTTPX_AVAILABLE io (img_url item) save_name st).1 = false →
    let r := _format_news hash img_dir HTTPX_AVAILABLE io item st in
    r.1 = payload_without_media item ∧
    (forall file, Image file ∉ r.1) ∧
    (¬ write_interrupted HTTPX_AVAILABLE io (img_url item)
         (Py.path_join img_dir save_name) →
     r.2 = st).
Proof.
  intros io item st save_name Hfail r. subst r.
  rewrite format_news_unfold.
  destruct (Py.truthy (img_url item)).
  - cbv zeta. fold save_name. rewrite Hfail. cbn [fst snd].
    split; [done|]. split; [apply payload_without_media_plain|].
    intros Hn. by apply download_image_frame.
  - cbn [fst snd]. split; [done|]. split; [apply payload_without_media_plain|done].
Qed.

End FailedDownload.

Lemma failed_download_keeps_item_witness :
  (_format_news Sample.len_hash "/data/imas_news/images" true Sample.offline
     Sample.A fresh).1 = payload_without_media Sample.A ∧
  (_format_news Sample.len_hash "/data/imas_news/images" true Sample.offline
     Sample.A fresh).2 = fresh.
Proof.
  destruct (failed_download_keeps_item Sample.len_hash "/data/imas_news/images" true
              Sample.offline Sample.A fresh) as (Hchain & _ & Hst).
  - reflexivity.
  - split; [exact Hchain|]. apply Hst.
    intros [_ (content & written & Hget & _)]. discriminate Hget.
Defined.

(** C8 as stated fails: a download that fails by an exception raised while
    the body is written leaves a file under the item's key. *)
Lemma failed_download_may_create_file :
  ¬ (forall (hash : string -> Z) (img_dir : string) (HTTPX_AVAILABLE : bool)
            (io : download_io) (item : Item) (st : State),
       (_download_image img_dir HTTPX_AVAILABLE io (img_url item)
          (img_name_of hash item) st).1 = false →
       let r := _format_news hash img_dir HTTPX_AVAILABLE io item st in
       r.1 = payload_without_media item ∧
       (img_files st !! img_name_of hash item = None →
        img_files r.2 !! img_name_of hash item = None)).
Proof.
  intros H.
  destruct (H Sample.len_hash "/data/imas_news/images" true Sample.disk_full
              Sample.A fresh) as [_ Hfile]; [reflexivity|].
  specialize (Hfile eq_refl). vm_compute in Hfile. discriminate Hfile.
Qed.

(** ** C9: URL normalization *)

Section Normalization.

Import Extractor.

Lemma startswith_slashes raw :
  Py.startswith raw "//" = true →
  Py.truthy raw = true ∧ Py.startswith raw "http" = false.
Proof.
  unfold Py.startswith. destruct raw as [|a raw]; [done|].
  cbn [String.prefix Py.truthy].
  destruct (ascii_dec "/"%char a) as [<-|]; [|done].
  intros _. split; [done|].
  destruct (ascii_dec "h"%char "/"%char) as [Heq|]; [discriminate Heq|done].
Qed.

(** The media URL: a protocol-relative source gets the [https:] scheme. *)
Lemma resolve_img_url_protocol_relative raw :
  Py.startswith raw "//" = true → resolve_img_url raw = "https:" +:+ raw.
Proof.
  intros H. unfold resolve_img_url.
  destruct (startswith_slashes raw H) as [-> ->]. by rewrite H.
Qed.

(** The detail URL: a protocol-relative link gets the origin prepended. *)
Lemma resolve_news_url_protocol_relative href :
  Py.startswith href "//" = true → resolve_news_url href = IMAS_ORIGIN +:+ href.
Proof.
  intros H. unfold resolve_news_url.
  by destruct (startswith_slashes href H) as [-> ->].
Qed.

(** Both URLs: a non-empty value that starts with neither [http] nor [//]
    gets the origin prepended. *)
Lemma resolve_relative s :
  Py.truthy s = true → Py.startswith s "http" = false →
  Py.startswith s "//" = false →
  resolve_news_url s = IMAS_ORIGIN +:+ s ∧ resolve_img_url s = IMAS_ORIGIN +:+ s.
Proof.
  intros Ht Hh Hs. unfold resolve_news_url, resolve_img_url.
  by rewrite Ht, Hh, Hs.
Qed.

End Normalization.

(** C9 at a card whose link and thumbnail are both protocol-relative: the
    media URL becomes [https://cdn.example/1.jpg], the detail URL (and the
    id) become the origin followed by the whole [//host/path]. *)
Theorem protocol_relative_detail_url_gets_origin :
  Extractor.parse_article Sample.protocol_relative_card =
    Some (mkItem "https://idolmaster-official.jp//idolmaster-official.jp/news/01"
                 "T1" "2024.05.01"
                 "https://idolmaster-official.jp//idolmaster-official.jp/news/01"
                 "https://cdn.example/1.jpg").
Proof. reflexivity. Qed.

(** ** C10: the media file name *)

Section FileName.

Lemma string_app_cons a s t : String a s +:+ t = String a (s +:+ t).
Proof. reflexivity. Qed.

Lemma string_app_length s t :
  String.length (s +:+ t) = (String.length s + String.length t)%nat.
Proof.
  induction s as [|a s IH]; [done|].
  rewrite string_app_cons. simpl. by rewrite IH.
Qed.

Lemma string_app_inj_r t s1 s2 : s1 +:+ t = s2 +:+ t → s1 = s2.
Proof.
  revert s2. induction s1 as [|a s1 IH]; intros [|b s2] H; [done| | |].
  - apply (f_equal String.length) in H.
    rewrite !string_app_length in H. simpl in H. lia.
  - apply (f_equal String.length) in H.
    rewrite !string_app_length in H. simpl in H. lia.
  - rewrite !string_app_cons in H. injection H as -> H. f_equal. by apply IH.
Qed.

(** C10: the file name is a function of the id and of the running
    process's [hash]: two processes name an item's image alike exactly
    when their hashes of the id agree up to sign. *)
Theorem img_name_follows_process_hash :
  forall (hash1 hash2 : string -> Z) (item : Item),
    img_name_of hash1 item = img_name_of hash2 item ↔
    Z.abs (hash1 (news_id item)) = Z.abs (hash2 (news_id item)).
Proof.
  intros hash1 hash2 item. unfold img_name_of, Py.str_of_int. split.
  - intros H. apply string_app_inj_r in H. by apply (inj pretty) in H.
  - by intros ->.
Qed.

End FileName.

(** ** C5: the retention bound *)

Section Retention.

Variable hash : string -> Z.
Variable img_dir : string.
Variable HTTPX_AVAILABLE : bool.

Implicit Types (st : State) (known batches : list (list Item)).

Lemma same_caches_refl st : same_caches st st.
Proof. by repeat split. Qed.

Lemma same_caches_trans st1 st2 st3 :
  same_caches st1 st2 → same_caches st2 st3 → same_caches st1 st3.
Proof. unfold same_caches. intros (-> & -> & ->) (-> & -> & ->). done. Qed.

Lemma download_image_caches io url save_name st :
  same_caches st (_download_image img_dir HTTPX_AVAILABLE io url save_name st).2.
Proof.
  unfold _download_image. destruct HTTPX_AVAILABLE; simpl; [|apply same_caches_refl].
  destruct (client_get io url) as [|status_code content]; [apply same_caches_refl|].
  destruct (status_code =? 200)%Z; [|apply same_caches_refl].
  destruct (file_write io _); by repeat split.
Qed.

Lemma format_news_caches io item st :
  same_caches st (_format_news hash img_dir HTTPX_AVAILABLE io item st).2.
Proof.
  rewrite format_news_unfold. destruct (Py.truthy _); [|apply same_caches_refl].
  apply download_image_caches.
Qed.

Lemma push_loop_caches io items :
  forall i st, same_caches st (push_loop hash img_dir HTTPX_AVAILABLE io i items st).2.
Proof.
  induction items as [|item rest IH]; intros i st; simpl.
  - apply same_caches_refl.
  - unfold bind. pose proof (format_news_caches (io i) item st) as H1.
    destruct (_format_news _ _ _ (io i) item st) as [chain st1].
    specialize (IH (S i) st1).
    destruct (push_loop _ _ _ io (S i) rest st1) as [sent st2].
    simpl in *. by eapply same_caches_trans.
Qed.

Lemma cleanup_images_caches os_remove st :
  same_caches st (_cleanup_images hash img_dir os_remove st).2.
Proof.
  unfold _cleanup_images, bind, get_state.
  destruct (delete_loop img_dir os_remove
              (elements (dom (img_files st) ∖
                 list_to_set (img_name_of hash <$> item_cache st))) st)
    as (Hi & Hit & Hc & _).
  by repeat split.
Qed.

(** A cycle leaves the caches and the cache file as its [_check_update]
    left them. *)
Lemma check_news_update_caches news_list o io os_remove st :
  same_caches (_check_update news_list o st).2
    (_check_news_update hash img_dir HTTPX_AVAILABLE news_list o io os_remove st).2.
Proof.
  unfold _check_news_update, bind, get_state.
  destruct (decide (idx_cache st = ∅)).
  - destruct (_check_update news_list o st); apply same_caches_refl.
  - destruct (_check_update news_list o st) as [[|x xs] st1]; cbn [snd].
    + apply same_caches_refl.
    + pose proof (push_loop_caches io (rev (x :: xs)) 0 st1) as H1.
      destruct (push_loop _ _ _ io 0 (rev (x :: xs)) st1) as [sent st2].
      pose proof (cleanup_images_caches os_remove st2) as H2.
      destruct (_cleanup_images _ _ os_remove st2) as [[] st3].
      simpl in *. by eapply same_caches_trans.
Qed.

Lemma retained_source_mono known batches more items :
  retained_source known batches items →
  retained_source known (batches ++ more) items.
Proof.
  intros [?|[?|(batch & Hin & ?)]]; [by left|by right; left|].
  right; right. exists batch. split; [|done]. apply elem_of_app. by left.
Qed.

Lemma retained_source_fetch known batches news_list :
  retained_source known (batches ++ [news_list]) (take 5 news_list).
Proof.
  right; right. exists news_list. split; [|done]. apply elem_of_app. right. by left.
Qed.

Lemma retained_source_nil known batches : retained_source known batches [].
Proof. by left. Qed.

Lemma save_cache_sourced known batches o st :
  sourced known batches st → sourced known batches (_save_cache o st).2.
Proof.
  intros [Hi Hf]. destruct o; simpl; split; try done. apply retained_source_nil.
Qed.

Lemma check_update_sourced known batches news_list o st :
  sourced known batches st →
  sourced known (batches ++ [news_list]) (_check_update news_list o st).2.
Proof.
  intros [Hi Hf]. rewrite check_update_unfold. cbv zeta.
  destruct (filter _ news_list) as [|x xs]; cbn [snd].
  - split; by apply retained_source_mono.
  - apply save_cache_sourced. split; simpl.
    + apply retained_source_fetch.
    + by apply retained_source_mono.
Qed.

Lemma step_sourced known batches ev st :
  sourced known batches st →
  sourced known (batches ++ fetched [ev]) (step hash img_dir HTTPX_AVAILABLE st ev).
Proof.
  intros Hs. destruct ev as [| |o|news_list o|news_list o io os_remove];
    unfold fetched; simpl; rewrite ?app_nil_r.
  - destruct Hs as [_ Hf]. split; [apply retained_source_nil|done].
  - unfold _load_cache, bind, get_state.
    destruct (cache_file st) as [| |data] eqn:Hc; [exact Hs|exact Hs|].
    destruct Hs as [Hi Hf]. rewrite Hc in Hf.
    split; simpl; [done|]. by rewrite Hc.
  - by apply save_cache_sourced.
  - by apply check_update_sourced.
  - pose proof (check_update_sourced known batches news_list o st Hs) as [Hi Hf].
    destruct (check_news_update_caches news_list o io os_remove st) as (_ & Hit & Hc).
    split; [by rewrite Hit|by rewrite Hc].
Qed.

Lemma run_sourced known evs :
  forall batches st,
    sourced known batches st →
    sourced known (batches ++ fetched evs) (run hash img_dir HTTPX_AVAILABLE st evs).
Proof.
  induction evs as [|ev evs IH]; intros batches st Hs.
  - unfold fetched. simpl. by rewrite app_nil_r.
  - simpl. apply (step_sourced _ _ ev) in Hs. apply IH in Hs.
    unfold fetched in *. simpl. rewrite <- app_assoc in Hs.
    destruct ev; simpl in *; done.
Qed.

Lemma retained_source_bound known batches items :
  Forall (fun l => (length l ≤ 5)%nat) known →
  retained_source known batches items → (length items ≤ 5)%nat.
Proof.
  intros Hk [->|[Hin|(batch & _ & ->)]].
  - simpl. lia.
  - by eapply Forall_forall in Hk.
  - rewrite length_take. lia.
Qed.

End Retention.

(** * Further properties *)

(** ** The diff, once more *)

Section DiffAgain.

Implicit Types (idx : gset string) (news_list : list Item) (st : State).

Lemma filter_novel_nil idx news_list :
  (forall news, news ∈ news_list → news_id news ∈ idx) →
  filter (novel idx) news_list = [].
Proof.
  intros Hseen. induction news_list as [|news rest IH]; [done|].
  rewrite filter_cons. destruct (decide (novel idx news)) as [Hn|_].
  - exfalso. apply Hn, Hseen. by left.
  - apply IH. intros x Hx. apply Hseen. by right.
Qed.

Lemma check_update_idx news_list o st :
  idx_cache (_check_update news_list o st).2 = idx_cache st ∨
  idx_cache (_check_update news_list o st).2
    = idx_cache st ∪ list_to_set (news_id <$> news_list).
Proof.
  rewrite check_update_unfold. cbv zeta.
  destruct (filter _ news_list) as [|x xs]; [by left|right]. cbn [snd].
  by destruct o.
Qed.

(** After a diff every candidate of its batch is seen. *)
Lemma check_update_all_seen news_list o st :
  forall news, news ∈ news_list →
               news_id news ∈ idx_cache (_check_update news_list o st).2.
Proof.
  intros news Hin. rewrite check_update_unfold. cbv zeta.
  destruct (filter (novel (idx_cache st)) news_list) as [|x xs] eqn:Hf; cbn [snd].
  - destruct (decide (news_id news ∈ idx_cache st)) as [|Hn]; [done|].
    assert (Hx : news ∈ filter (novel (idx_cache st)) news_list)
      by by apply list_elem_of_filter.
    rewrite Hf in Hx. by apply elem_of_nil in Hx.
  - destruct (save_cache_frame o
      (mkState (idx_cache st ∪ list_to_set (news_id <$> news_list))
               (take 5 news_list) (cache_file st) (img_files st))) as (-> & _).
    simpl. apply elem_of_union_r, elem_of_list_to_set, list_elem_of_fmap. eauto.
Qed.

(** X1: polling the same batch a second time finds nothing novel and leaves
    the whole state, cache file included, as the first poll left it. *)
Theorem check_update_twice_is_quiet :
  forall (st : State) (news_list : list Item) (o o' : save_outcome),
    let st1 := (_check_update news_list o st).2 in
    (_check_update news_list o' st1).1 = [] ∧
    (_check_update news_list o' st1).2 = st1.
Proof.
  intros st news_list o o' st1.
  rewrite (check_update_unfold news_list o' st1). cbv zeta.
  rewrite filter_novel_nil; [done|].
  intros news Hin. by apply check_update_all_seen.
Qed.

Lemma step_idx_mono hash img_dir HTTPX_AVAILABLE st ev :
  in_process ev →
  idx_cache st ⊆ idx_cache (step hash img_dir HTTPX_AVAILABLE st ev).
Proof.
  destruct ev as [| |o|news_list o|news_list o io os_remove]; simpl; try done;
    intros _.
  - by destruct o.
  - destruct (check_update_idx news_list o st) as [-> | ->]; set_solver.
  - destruct (check_news_update_caches hash img_dir HTTPX_AVAILABLE
                news_list o io os_remove st) as (-> & _).
    destruct (check_update_idx news_list o st) as [-> | ->]; set_solver.
Qed.

Lemma run_idx_mono hash img_dir HTTPX_AVAILABLE evs :
  forall st,
    Forall in_process evs →
    idx_cache st ⊆ idx_cache (run hash img_dir HTTPX_AVAILABLE st evs).
Proof.
  induction evs as [|ev evs IH]; intros st Hall; [done|].
  apply Forall_cons in Hall as [Hev Hall]. simpl.
  etrans; [by apply (step_idx_mono hash img_dir HTTPX_AVAILABLE st ev)|].
  by apply IH.
Qed.

(** X2: within one process an id, once in [idx_cache], stays there, and no
    later diff reports an item with that id. *)
Theorem seen_id_is_never_novel_again :
  forall (hash : string -> Z) (img_dir : string) (HTTPX_AVAILABLE : bool)
         (st : State) (evs : list event) (id : string)
         (news_list : list Item) (o : save_outcome),
    Forall in_process evs →
    id ∈ idx_cache st →
    let st' := run hash img_dir HTTPX_AVAILABLE st evs in
    id ∈ idx_cache st' ∧
    forall news, news ∈ (_check_update news_list o st').1 → news_id news ≠ id.
Proof.
  intros hash img_dir HTTPX_AVAILABLE st evs id news_list o Hall Hid st'.
  assert (Hid' : id ∈ idx_cache st').
  { by apply (run_idx_mono hash img_dir HTTPX_AVAILABLE evs st Hall). }
  split; [done|]. intros news Hin Heq.
  rewrite check_update_unfold in Hin. cbv zeta in Hin.
  assert (Hf : news ∈ filter (novel (idx_cache st')) news_list).
  { destruct (filter _ news_list); [by apply elem_of_nil in Hin|done]. }
  apply list_elem_of_filter in Hf as [Hn _]. apply Hn. by rewrite Heq.
Qed.

End DiffAgain.

Lemma seen_id_is_never_novel_again_witness :
  news_id Sample.Old ∈
    idx_cache (run Sample.len_hash "/data/imas_news/images" true Sample.warm
                 [EvCheckUpdate [Sample.A; Sample.Old] SaveOk; EvSave SaveDumpRaises]).
Proof.
  destruct (seen_id_is_never_novel_again Sample.len_hash "/data/imas_news/images" true
              Sample.warm
              [EvCheckUpdate [Sample.A; Sample.Old] SaveOk; EvSave SaveDumpRaises]
              (news_id Sample.Old) [Sample.Old] SaveOk) as [Hin _].
  - repeat constructor.
  - apply (bool_decide_unpack _). vm_compute. exact I.
  - exact Hin.
Defined.

(** ** Persistence across a restart *)

Section Persistence.

Implicit Types (st : State) (news_list : list Item).

(** A new process: [__init__], then [initialize] runs [_load_cache]. *)
Lemma restart_restores st :
  let st' := (_load_cache (__init__ st)).2 in
  match cache_file st with
  | Json data =>
      idx_cache st' = list_to_set (default [] (json_idx_cache data)) ∧
      item_cache st' = default [] (json_item_cache data)
  | _ => idx_cache st' = ∅ ∧ item_cache st' = []
  end ∧
  cache_file st' = cache_file st ∧ img_files st' = img_files st.
Proof.
  unfold _load_cache, __init__, bind, get_state. simpl.
  by destruct (cache_file st) as [| |data].
Qed.

Lemma restart_of_json st data :
  cache_file st = Json data →
  idx_cache (_load_cache (__init__ st)).2
    = list_to_set (default [] (json_idx_cache data)) ∧
  item_cache (_load_cache (__init__ st)).2 = default [] (json_item_cache data) ∧
  img_files (_load_cache (__init__ st)).2 = img_files st.
Proof.
  intros Hc. pose proof (restart_restores st) as Hr. cbv zeta in Hr.
  rewrite Hc in Hr. by destruct Hr as ((? & ?) & _ & ?).
Qed.

Lemma restart_of_unreadable st :
  cache_file st = Unreadable →
  idx_cache (_load_cache (__init__ st)).2 = ∅ ∧
  item_cache (_load_cache (__init__ st)).2 = [].
Proof.
  intros Hc. pose proof (restart_restores st) as Hr. cbv zeta in Hr.
  rewrite Hc in Hr. by destruct Hr as ((? & ?) & _).
Qed.

(** X3: what [_save_cache] wrote is what the next process loads: after a
    successful save, [__init__] followed by [_load_cache] gives back the
    same [idx_cache] and the same [item_cache]. *)
Theorem save_then_restart_restores_caches :
  forall (st : State),
    let st' := (_load_cache (__init__ (_save_cache SaveOk st).2)).2 in
    idx_cache st' = idx_cache st ∧
    item_cache st' = item_cache st ∧
    img_files st' = img_files st.
Proof.
  intros st st'. subst st'.
  destruct (restart_of_json (_save_cache SaveOk st).2
              (mkJson (Some (elements (idx_cache st))) (Some (item_cache st)))
              eq_refl) as (Hi & Hit & Himg).
  rewrite Hi, Hit, Himg. split; [|done].
  apply list_to_set_elements_L.
Qed.

(** X4: a save that fails does not keep the caches for the next process:
    when [json.dump] raises the truncated file is unreadable and the next
    process starts with both caches empty, whatever the file held before;
    when [open] raises the next process gets what the old file held. *)
Theorem failed_save_then_restart :
  forall (st : State),
    (let st' := (_load_cache (__init__ (_save_cache SaveDumpRaises st).2)).2 in
     idx_cache st' = ∅ ∧ item_cache st' = []) ∧
    (let st' := (_load_cache (__init__ (_save_cache SaveOpenRaises st).2)).2 in
     st' = (_load_cache (__init__ st)).2).
Proof.
  intros st. split.
  - cbv zeta. by apply restart_of_unreadable.
  - done.
Qed.

(** X5: no second announcement after a restart: when a diff found novel
    items and its save succeeded, a process started afterwards finds
    nothing novel in the same batch and is warm. *)
Theorem restart_after_saved_diff_is_quiet :
  forall (st : State) (news_list : list Item) (o : save_outcome),
    (_check_update news_list SaveOk st).1 ≠ [] →
    let st1 := (_load_cache (__init__ (_check_update news_list SaveOk st).2)).2 in
    idx_cache st1 ≠ ∅ ∧
    item_cache st1 = take 5 news_list ∧
    (_check_update news_list o st1).1 = [].
Proof.
  intros st news_list o Hne st1.
  assert (Hst : idx_cache st1 = idx_cache st ∪ list_to_set (news_id <$> news_list)
                ∧ item_cache st1 = take 5 news_list).
  { subst st1. revert Hne. rewrite check_update_unfold. cbv zeta.
    destruct (filter _ news_list) as [|x xs]; [done|]. intros _. cbn [snd].
    destruct (restart_of_json
      (_save_cache SaveOk
         (mkState (idx_cache st ∪ list_to_set (news_id <$> news_list))
                  (take 5 news_list) (cache_file st) (img_files st))).2
      (mkJson (Some (elements (idx_cache st ∪ list_to_set (news_id <$> news_list))))
              (Some (take 5 news_list)))
      eq_refl) as (Hi & Hit & _).
    rewrite Hi, Hit. split; [|done]. apply list_to_set_elements_L. }
  destruct Hst as [Hi Hit].
  assert (Hseen : forall news, news ∈ news_list → news_id news ∈ idx_cache st1).
  { intros news Hin. rewrite Hi.
    apply elem_of_union_r, elem_of_list_to_set, list_elem_of_fmap. eauto. }
  split; [|split; [done|]].
  - destruct news_list as [|n rest].
    + exfalso. apply Hne. by rewrite check_update_unfold.
    + intros Hempty. specialize (Hseen n ltac:(by left)).
      rewrite Hempty in Hseen. by apply not_elem_of_empty in Hseen.
  - rewrite check_update_unfold. cbv zeta. by rewrite filter_novel_nil.
Qed.

End Persistence.

Lemma restart_after_saved_diff_is_quiet_witness :
  (_check_update [Sample.A; Sample.B] SaveDumpRaises
     (_load_cache (__init__ (_check_update [Sample.A; Sample.B] SaveOk fresh).2)).2).1
  = [].
Proof.
  destruct (restart_after_saved_diff_is_quiet fresh [Sample.A; Sample.B] SaveDumpRaises)
    as (_ & _ & Hquiet).
  - vm_compute. discriminate.
  - exact Hquiet.
Defined.

(** ** Coherence of the caches along a history *)

Section Coherence.

Variable hash : string -> Z.
Variable img_dir : string.
Variable HTTPX_AVAILABLE : bool.

Implicit Types (st : State) (news_list : list Item).

Lemma mem_coherent_empty : mem_coherent ∅ [].
Proof. split; [|done]. intros item Hin. by apply elem_of_nil in Hin. Qed.

Lemma mem_coherent_fetch (idx : gset string) news_list :
  news_list ≠ [] →
  mem_coherent (idx ∪ list_to_set (news_id <$> news_list)) (take 5 news_list).
Proof.
  intros Hne. split.
  - intros item Hin. apply elem_of_union_r, elem_of_list_to_set, list_elem_of_fmap.
    exists item. split; [done|]. by apply (subseteq_take 5 news_list).
  - by destruct news_list.
Qed.

Lemma save_cache_coherent o st : coherent st → coherent (_save_cache o st).2.
Proof.
  intros [Hm Hf]. destruct o.
  - split; [exact Hm|].
    change (mem_coherent (list_to_set (elements (idx_cache st))) (item_cache st)).
    by rewrite list_to_set_elements_L.
  - exact (conj Hm Hf).
  - split; [exact Hm|exact I].
Qed.

Lemma check_update_coherent news_list o st :
  coherent st → coherent (_check_update news_list o st).2.
Proof.
  intros [Hm Hf]. rewrite check_update_unfold. cbv zeta.
  destruct (filter _ news_list) as [|x xs] eqn:Hfil; [done|]. cbn [snd].
  apply save_cache_coherent. split; [|done]. simpl.
  apply mem_coherent_fetch. intros ->. done.
Qed.

Lemma same_caches_coherent st st' : same_caches st st' → coherent st → coherent st'.
Proof. intros (Hi & Hit & Hc) [Hm Hf]. split; [by rewrite Hi, Hit|by rewrite Hc]. Qed.

Lemma step_coherent st ev :
  coherent st → coherent (step hash img_dir HTTPX_AVAILABLE st ev).
Proof.
  intros Hs. destruct ev as [| |o|news_list o|news_list o io os_remove]; simpl.
  - destruct Hs as [_ Hf]. split; [apply mem_coherent_empty|done].
  - unfold _load_cache, bind, get_state.
    destruct (cache_file st) as [| |data] eqn:Hc; [exact Hs|exact Hs|].
    destruct Hs as [_ Hf]. rewrite Hc in Hf. split; simpl; [done|]. by rewrite Hc.
  - by apply save_cache_coherent.
  - by apply check_update_coherent.
  - eapply same_caches_coherent; [apply check_news_update_caches|].
    by apply check_update_coherent.
Qed.

Lemma run_coherent evs :
  forall st, coherent st → coherent (run hash img_dir HTTPX_AVAILABLE st evs).
Proof.
  induction evs as [|ev evs IH]; intros st Hs; [done|].
  simpl. by apply IH, step_coherent.
Qed.

(** X6: along any history of constructor, load, save, diff and cycle calls
    that starts coherent, the id of every retained item is in
    [idx_cache]. *)
Theorem retained_items_are_seen :
  forall (st0 : State) (evs : list event) (item : Item),
    coherent st0 →
    let st := run hash img_dir HTTPX_AVAILABLE st0 evs in
    item ∈ item_cache st → news_id item ∈ idx_cache st.
Proof.
  intros st0 evs item Hs st Hin.
  destruct (run_coherent evs st0 Hs) as [[Hseen _] _]. by apply Hseen.
Qed.

(** X7: along such a history [item_cache] is empty exactly when
    [idx_cache] is: the scheduled cycle's test for a first run and the
    manual command's test for an empty cache always agree. *)
Theorem caches_are_empty_together :
  forall (st0 : State) (evs : list event),
    coherent st0 →
    let st := run hash img_dir HTTPX_AVAILABLE st0 evs in
    idx_cache st = ∅ ↔ item_cache st = [].
Proof.
  intros st0 evs Hs st.
  destruct (run_coherent evs st0 Hs) as [[Hseen Hempty] _]. fold st in Hseen, Hempty.
  split; [|done]. intros Hidx.
  destruct (item_cache st) as [|item rest]; [done|].
  specialize (Hseen item ltac:(by left)). rewrite Hidx in Hseen.
  by apply not_elem_of_empty in Hseen.
Qed.

End Coherence.

Lemma fresh_coherent : coherent fresh.
Proof. split; [|done]. split; [|done]. intros item Hin. by apply elem_of_nil in Hin. Defined.

Lemma retained_items_are_seen_witness :
  news_id (Sample.numbered 7) ∈
    idx_cache (run Sample.len_hash "/data/imas_news/images" true fresh Sample.history).
Proof.
  apply (retained_items_are_seen Sample.len_hash "/data/imas_news/images" true
           fresh Sample.history (Sample.numbered 7) fresh_coherent).
  apply (bool_decide_unpack _). vm_compute. exact I.
Defined.

Lemma caches_are_empty_together_witness :
  idx_cache (run Sample.len_hash "/data/imas_news/images" true fresh
               [EvInit; EvLoad; EvSave SaveOk; EvInit; EvLoad]) = ∅.
Proof.
  apply (caches_are_empty_together Sample.len_hash "/data/imas_news/images" true
           fresh [EvInit; EvLoad; EvSave SaveOk; EvInit; EvLoad] fresh_coherent).
  reflexivity.
Defined.

(** ** Downloads and payloads *)

Section Media.

Variable hash : string -> Z.
Variable img_dir : string.
Variable HTTPX_AVAILABLE : bool.

Implicit Types (st : State) (io : download_io).

(** What a successful [_download_image] means and leaves. *)
Lemma download_image_true io url save_name st :
  (_download_image img_dir HTTPX_AVAILABLE io url save_name st).1 = true →
  HTTPX_AVAILABLE = true ∧
  ∃ content,
    client_get io url = GetResponse 200 content ∧
    file_write io (Py.path_join img_dir save_name) = WriteOk ∧
    img_files (_download_image img_dir HTTPX_AVAILABLE io url save_name st).2
      = <[save_name := content]> (img_files st).
Proof.
  unfold _download_image. destruct HTTPX_AVAILABLE; [|done]. simpl.
  destruct (client_get io url) as [|status_code content]; [done|].
  destruct (Z.eqb_spec status_code 200) as [->|]; [|done].
  destruct (file_write io _); [done|done|]. intros _. eauto.
Qed.

Lemma download_image_other io url save_name st other :
  other ≠ save_name →
  img_files (_download_image img_dir HTTPX_AVAILABLE io url save_name st).2 !! other
    = img_files st !! other.
Proof.
  intros Hne. unfold _download_image. destruct HTTPX_AVAILABLE; [|done]. simpl.
  destruct (client_get io url) as [|status_code content]; [done|].
  destruct (status_code =? 200)%Z; [|done].
  destruct (file_write io _); [done| |]; simpl; by rewrite lookup_insert_ne.
Qed.

(** X10: [_download_image] returns [True] exactly when httpx is there, the
    status is 200 and the write went through; the file then holds exactly
    the response body; and whatever happens, no file but [save_name] is
    created, changed or removed. *)
Theorem download_image_succeeds_iff :
  forall (io : download_io) (url save_name : string) (st : State),
    let r := _download_image img_dir HTTPX_AVAILABLE io url save_name st in
    (r.1 = true ↔
       HTTPX_AVAILABLE = true ∧
       ∃ content, client_get io url = GetResponse 200 content ∧
                  file_write io (Py.path_join img_dir save_name) = WriteOk) ∧
    (forall content, r.1 = true → client_get io url = GetResponse 200 content →
                     img_files r.2 !! save_name = Some content) ∧
    (forall other, other ≠ save_name →
                   img_files r.2 !! other = img_files st !! other).
Proof.
  intros io url save_name st r. subst r. split; [split|split].
  - intros H. apply download_image_true in H as (? & content & ? & ? & _). eauto.
  - intros (-> & content & Hget & Hw). unfold _download_image. simpl.
    by rewrite Hget, Hw.
  - intros content H Hget.
    apply download_image_true in H as (_ & content' & Hget' & _ & ->).
    rewrite Hget in Hget'. injection Hget' as <-. apply lookup_insert_eq.
  - intros other Hne. by apply download_image_other.
Qed.

(** X11: a payload names an image file only if that file was just written:
    when the chain of [_format_news] holds an [Image], its path is the
    item's key under the image directory and the file under that key holds
    the body of a 200 response to the item's media URL. *)
Theorem payload_image_is_on_disk :
  forall (io : download_io) (item : Item) (st : State) (file : string),
    let r := _format_news hash img_dir HTTPX_AVAILABLE io item st in
    Image file ∈ r.1 →
    file = Py.path_join img_dir (img_name_of hash item) ∧
    Py.truthy (img_url item) = true ∧
    ∃ content,
      client_get io (img_url item) = GetResponse 200 content ∧
      img_files r.2 !! img_name_of hash item = Some content.
Proof.
  intros io item st file r Hin. subst r. rewrite format_news_unfold in *.
  destruct (Py.truthy (img_url item));
    [|by apply payload_without_media_plain in Hin].
  cbv zeta in *.
  destruct (_download_image img_dir HTTPX_AVAILABLE io (img_url item)
              (img_name_of hash item) st) as [[|] st'] eqn:Hd; cbn [fst snd] in *;
    [|by apply payload_without_media_plain in Hin].
  pose proof (download_image_true io (img_url item) (img_name_of hash item) st) as Ht.
  rewrite Hd in Ht. destruct (Ht eq_refl) as (_ & content & Hget & _ & Hfiles).
  cbn [snd] in Hfiles. split; [|split; [done|]].
  - unfold payload_with_media, text_chain, link_comp in Hin.
    destruct (Py.truthy (date item)); set_solver.
  - exists content. split; [done|]. rewrite Hfiles. apply lookup_insert_eq.
Qed.

(** With an empty media URL [_format_news] attempts no download. *)
Lemma format_news_without_media_url :
  forall (io : download_io) (item : Item) (st : State),
    img_url item = "" →
    _format_news hash img_dir HTTPX_AVAILABLE io item st
      = (payload_without_media item, st).
Proof.
  intros io item st Hurl. rewrite format_news_unfold. by rewrite Hurl.
Qed.

End Media.

Lemma payload_image_is_on_disk_witness :
  img_files
    (_format_news Sample.len_hash "/data/imas_news/images" true
       (mkIo (fun _ => GetResponse 200 [x2a]) (fun _ => WriteOk)) Sample.A fresh).2
    !! "38.jpg" = Some [x2a].
Proof.
  destruct (payload_image_is_on_disk Sample.len_hash "/data/imas_news/images" true
              (mkIo (fun _ => GetResponse 200 [x2a]) (fun _ => WriteOk))
              Sample.A fresh "/data/imas_news/images/38.jpg")
    as (_ & _ & content & Hget & Hfile).
  - apply (bool_decide_unpack _). vm_compute. exact I.
  - injection Hget as <-. exact Hfile.
Defined.

Lemma download_image_succeeds_iff_witness :
  img_files
    (_download_image "/data/imas_news/images" true
       (mkIo (fun _ => GetResponse 200 [x2a]) (fun _ => WriteOk))
       "https://cdn.example/3.jpg" "38.jpg" fresh).2 !! "38.jpg" = Some [x2a].
Proof.
  destruct (download_image_succeeds_iff "/data/imas_news/images" true
              (mkIo (fun _ => GetResponse 200 [x2a]) (fun _ => WriteOk))
              "https://cdn.example/3.jpg" "38.jpg" fresh) as (_ & Hbody & _).
  apply Hbody; reflexivity.
Defined.

(** ** Whole cycles and the janitor *)

Section Cycles.

Variable hash : string -> Z.
Variable img_dir : string.
Variable HTTPX_AVAILABLE : bool.

Implicit Types (st : State) (news_list : list Item) (os_remove : string -> bool).

(** X8: a poll that brings nothing new is a no-op: when every candidate is
    already in [idx_cache] (an empty batch included), [_check_news_update]
    pushes nothing and returns the state as it was: no save, no download, no
    janitor pass. *)
Theorem quiet_cycle_changes_nothing :
  forall (st : State) (news_list : list Item) (o : save_outcome)
         (io : nat -> download_io) (os_remove : string -> bool),
    (forall news, news ∈ news_list → news_id news ∈ idx_cache st) →
    _check_news_update hash img_dir HTTPX_AVAILABLE news_list o io os_remove st
      = ([], st).
Proof.
  intros st news_list o io os_remove Hseen.
  unfold _check_news_update, bind, get_state.
  pose proof (check_update_unfold news_list o st) as Hcu. cbv zeta in Hcu.
  rewrite filter_novel_nil in Hcu by done.
  destruct (decide (idx_cache st = ∅)); by rewrite Hcu.
Qed.

(** The state a warm cycle with novel items ends in. *)
Lemma check_news_update_warm_state news_list o io os_remove st :
  idx_cache st ≠ ∅ →
  (_check_update news_list o st).1 ≠ [] →
  (_check_news_update hash img_dir HTTPX_AVAILABLE news_list o io os_remove st).2
    = (_cleanup_images hash img_dir os_remove
         (push_loop hash img_dir HTTPX_AVAILABLE io 0
            (rev (_check_update news_list o st).1)
            (_check_update news_list o st).2).2).2.
Proof.
  intros Hwarm Hne. unfold _check_news_update, bind, get_state.
  destruct (decide (idx_cache st = ∅)) as [|_]; [done|].
  destruct (_check_update news_list o st) as [[|x xs] st1]; [done|]. cbn [fst snd].
  destruct (push_loop _ _ _ io 0 (rev (x :: xs)) st1) as [sent st2]. cbn [snd].
  by destruct (_cleanup_images hash img_dir os_remove st2).
Qed.

(** What a janitor pass leaves when every removal succeeds. *)
Lemma cleanup_images_lookup os_remove st f :
  img_files (_cleanup_images hash img_dir os_remove st).2 !! f =
    if decide (f ∈ dom (img_files st)
                   ∖ list_to_set (C := gset string) (img_name_of hash <$> item_cache st)
               ∧ os_remove (Py.path_join img_dir f) = true)
    then None else img_files st !! f.
Proof.
  unfold _cleanup_images, bind, get_state.
  destruct (delete_loop img_dir os_remove
              (elements (dom (img_files st) ∖
                 list_to_set (img_name_of hash <$> item_cache st))) st)
    as (_ & _ & _ & Hf).
  rewrite Hf.
  destruct (decide (f ∈ elements _ ∧ _)) as [[Hin Hr]|Hn].
  - rewrite decide_True; [done|]. split; [by apply elem_of_elements|done].
  - rewrite decide_False; [done|]. intros [Hin Hr]. apply Hn.
    split; [by apply elem_of_elements|done].
Qed.

Lemma cleanup_images_remaining os_remove st f :
  (forall g, os_remove (Py.path_join img_dir g) = true) →
  f ∈ dom (img_files (_cleanup_images hash img_dir os_remove st).2) →
  f ∈ dom (img_files st) ∧ ∃ item, item ∈ item_cache st ∧ f = img_name_of hash item.
Proof.
  intros Hall. rewrite !elem_of_dom, cleanup_images_lookup.
  destruct (decide _) as [|Hn]; [by intros [? ?]|]. intros Hsome. split; [done|].
  destruct (decide (f ∈ list_to_set (C := gset string)
                          (img_name_of hash <$> item_cache st))) as [Hc|Hnc].
  - apply elem_of_list_to_set, list_elem_of_fmap in Hc as (item & -> & Hin). eauto.
  - exfalso. apply Hn. split; [|apply Hall].
    apply elem_of_difference. split; [by apply elem_of_dom|done].
Qed.

(** The push loop only adds files. *)
Lemma download_image_dom io url save_name st :
  dom (img_files st)
    ⊆ dom (img_files (_download_image img_dir HTTPX_AVAILABLE io url save_name st).2).
Proof.
  unfold _download_image. destruct HTTPX_AVAILABLE; [|done]. simpl.
  destruct (client_get io url) as [|status_code content]; [done|].
  destruct (status_code =? 200)%Z; [|done].
  destruct (file_write io _); [done| |]; simpl; rewrite dom_insert_L; set_solver.
Qed.

Lemma format_news_dom io item st :
  dom (img_files st)
    ⊆ dom (img_files (_format_news hash img_dir HTTPX_AVAILABLE io item st).2).
Proof.
  rewrite format_news_unfold. destruct (Py.truthy _); [|done].
  apply download_image_dom.
Qed.

Lemma format_news_fetches io item st content :
  HTTPX_AVAILABLE = true →
  Py.truthy (img_url item) = true →
  client_get io (img_url item) = GetResponse 200 content →
  file_write io (Py.path_join img_dir (img_name_of hash item)) = WriteOk →
  img_name_of hash item
    ∈ dom (img_files (_format_news hash img_dir HTTPX_AVAILABLE io item st).2).
Proof.
  intros Hx Ht Hget Hw. rewrite format_news_unfold, Ht. cbv zeta. cbn [snd].
  unfold _download_image. rewrite Hx, Hget, Hw. simpl.
  rewrite dom_insert_L. set_solver.
Qed.

Lemma push_loop_dom io items :
  forall i st,
    dom (img_files st)
      ⊆ dom (img_files (push_loop hash img_dir HTTPX_AVAILABLE io i items st).2).
Proof.
  induction items as [|item rest IH]; intros i st; simpl; [done|].
  unfold bind. pose proof (format_news_dom (io i) item st) as H1.
  destruct (_format_news _ _ _ (io i) item st) as [chain st1].
  specialize (IH (S i) st1).
  destruct (push_loop _ _ _ io (S i) rest st1) as [sent st2].
  simpl in *. set_solver.
Qed.

(** When every download succeeds, the loop leaves an image under the key of
    each item that has a media URL. *)
Lemma push_loop_fetches io items :
  HTTPX_AVAILABLE = true →
  (forall i url, ∃ content, client_get (io i) url = GetResponse 200 content) →
  (forall i path, file_write (io i) path = WriteOk) →
  forall i st item,
    item ∈ items → Py.truthy (img_url item) = true →
    img_name_of hash item
      ∈ dom (img_files (push_loop hash img_dir HTTPX_AVAILABLE io i items st).2).
Proof.
  intros Hx Hget Hw. induction items as [|x rest IH]; intros i st item Hin Ht.
  - by apply elem_of_nil in Hin.
  - simpl. unfold bind.
    pose proof (format_news_dom (io i) x st) as Hmono.
    pose proof (fun c => format_news_fetches (io i) x st c Hx) as Hfetch.
    destruct (_format_news _ _ _ (io i) x st) as [chain st1].
    pose proof (push_loop_dom io rest (S i) st1) as Hrest.
    specialize (IH (S i) st1 item).
    destruct (push_loop _ _ _ io (S i) rest st1) as [sent st2].
    simpl in *. apply elem_of_cons in Hin as [->|Hin]; [|by apply IH].
    apply Hrest. destruct (Hget i (img_url x)) as [content Hc].
    by apply (Hfetch content).
Qed.

(** X9: after a warm cycle that found novel items and whose removals all
    succeeded, every file in the image directory is the key of one of the
    first five candidates of the batch, so no file is left under the key
    of an item whose key is that of none of the first five; and when every
    download succeeds the push loop did put the image of each novel item
    with a media URL on disk: for a novel item further down the page it is
    fetched and removed again by the same cycle. *)
Theorem warm_cycle_keeps_only_retained_images :
  forall (st : State) (news_list : list Item) (o : save_outcome)
         (io : nat -> download_io) (os_remove : string -> bool),
    idx_cache st ≠ ∅ →
    (_check_update news_list o st).1 ≠ [] →
    (forall g, os_remove (Py.path_join img_dir g) = true) →
    let new_items := (_check_update news_list o st).1 in
    let pushed :=
      (push_loop hash img_dir HTTPX_AVAILABLE io 0 (rev new_items)
         (_check_update news_list o st).2).2 in
    let st' :=
      (_check_news_update hash img_dir HTTPX_AVAILABLE news_list o io os_remove st).2 in
    st' = (_cleanup_images hash img_dir os_remove pushed).2 ∧
    (forall f, f ∈ dom (img_files st') →
               ∃ item, item ∈ take 5 news_list ∧ f = img_name_of hash item) ∧
    (forall item,
       (forall kept, kept ∈ take 5 news_list →
                     img_name_of hash item ≠ img_name_of hash kept) →
       img_files st' !! img_name_of hash item = None) ∧
    (HTTPX_AVAILABLE = true →
     (forall i url, ∃ content, client_get (io i) url = GetResponse 200 content) →
     (forall i path, file_write (io i) path = WriteOk) →
     forall item, item ∈ new_items → Py.truthy (img_url item) = true →
                  img_name_of hash item ∈ dom (img_files pushed)).
Proof.
  intros st news_list o io os_remove Hwarm Hne Hall new_items pushed st'.
  assert (Hst' : st' = (_cleanup_images hash img_dir os_remove pushed).2).
  { subst st' pushed new_items. by apply check_news_update_warm_state. }
  assert (Hkept : forall f, f ∈ dom (img_files st') →
            ∃ item, item ∈ take 5 news_list ∧ f = img_name_of hash item).
  { intros f Hin. rewrite Hst' in Hin.
    apply cleanup_images_remaining in Hin as [_ (item & Hitem & ->)]; [|done].
    exists item. split; [|done].
    destruct (push_loop_caches hash img_dir HTTPX_AVAILABLE io
                (rev new_items) 0 (_check_update news_list o st).2) as (_ & Hit & _).
    fold pushed in Hit. rewrite Hit in Hitem.
    assert (Hupd : item_cache (_check_update news_list o st).2 = take 5 news_list).
    { revert Hne. rewrite check_update_unfold. cbv zeta.
      destruct (filter _ news_list) as [|x xs]; [done|]. intros _. cbn [snd].
      by destruct o. }
    by rewrite Hupd in Hitem. }
  split; [done|]. split; [done|]. split.
  - intros item Hdiff. apply not_elem_of_dom. intros Hin.
    destruct (Hkept _ Hin) as (kept & Hk & Heq). by apply (Hdiff kept).
  - intros Hx Hget Hw item Hin Ht. subst pushed.
    apply push_loop_fetches; try done. apply list_elem_of_In, in_rev.
    rewrite rev_involutive. by apply list_elem_of_In.
Qed.

(** X20: after a janitor pass whose removals all succeeded, a second pass
    finds nothing to delete and leaves the state as it is, whatever
    [os.remove] would do then. *)
Theorem cleanup_images_second_pass :
  forall (st : State) (os_remove os_remove' : string -> bool),
    (forall g, os_remove (Py.path_join img_dir g) = true) →
    let st1 := (_cleanup_images hash img_dir os_remove st).2 in
    (_cleanup_images hash img_dir os_remove' st1).2 = st1.
Proof.
  intros st os_remove os_remove' Hall st1.
  destruct (cleanup_images_caches hash img_dir os_remove st) as (_ & Hit & _).
  fold st1 in Hit.
  assert (Hnone : dom (img_files st1)
                    ∖ list_to_set (C := gset string) (img_name_of hash <$> item_cache st1)
                  = ∅).
  { apply set_eq. intros f. split; [|by intros ?%not_elem_of_empty].
    intros [Hd Hn]%elem_of_difference. exfalso. apply Hn.
    apply cleanup_images_remaining in Hd as [_ (item & Hitem & ->)]; [|done].
    apply elem_of_list_to_set, list_elem_of_fmap. exists item. by rewrite Hit. }
  unfold _cleanup_images at 1. unfold bind, get_state.
  rewrite Hnone, elements_empty. done.
Qed.

End Cycles.

Lemma quiet_cycle_changes_nothing_witness :
  _check_news_update Sample.len_hash "/data/imas_news/images" true
    [Sample.A] SaveOk (fun _ => Sample.disk_full) (fun _ => true) Sample.with_orphan
  = ([], Sample.with_orphan).
Proof.
  apply (quiet_cycle_changes_nothing Sample.len_hash "/data/imas_news/images" true).
  intros news Hin. apply list_elem_of_singleton in Hin as ->.
  apply (bool_decide_unpack _). vm_compute. exact I.
Defined.

Lemma warm_cycle_keeps_only_retained_images_witness :
  img_name_of Sample.len_hash Sample2.Late
    ∈ dom (img_files
             (push_loop Sample.len_hash "/data/imas_news/images" true
                (fun _ => Sample2.online) 0
                (rev (_check_update Sample2.page SaveOk Sample.warm).1)
                (_check_update Sample2.page SaveOk Sample.warm).2).2) ∧
  img_files
    (_check_news_update Sample.len_hash "/data/imas_news/images" true
       Sample2.page SaveOk (fun _ => Sample2.online) (fun _ => true) Sample.warm).2
    !! img_name_of Sample.len_hash Sample2.Late = None.
Proof.
  destruct (warm_cycle_keeps_only_retained_images Sample.len_hash
              "/data/imas_news/images" true Sample.warm Sample2.page SaveOk
              (fun _ => Sample2.online) (fun _ => true)) as (_ & _ & Hgone & Hfetched).
  - vm_compute. intros H. discriminate H.
  - vm_compute. discriminate.
  - reflexivity.
  - split.
    + apply Hfetched.
      * reflexivity.
      * intros i url. by exists [x2a].
      * reflexivity.
      * apply (bool_decide_unpack _). vm_compute. exact I.
      * reflexivity.
    + apply Hgone. intros kept Hin.
      repeat (apply elem_of_cons in Hin as [->|Hin]); try (vm_compute; discriminate).
      by apply elem_of_nil in Hin.
Defined.

Lemma cleanup_images_second_pass_witness :
  (_cleanup_images Sample.len_hash "/data/imas_news/images" (fun _ => false)
     (_cleanup_images Sample.len_hash "/data/imas_news/images" (fun _ => true)
        Sample.with_orphan).2).2
  = (_cleanup_images Sample.len_hash "/data/imas_news/images" (fun _ => true)
       Sample.with_orphan).2.
Proof.
  apply (cleanup_images_second_pass Sample.len_hash "/data/imas_news/images"
           Sample.with_orphan (fun _ => true) (fun _ => false)).
  reflexivity.
Defined.

(** ** The extractor *)

Section ExtractorFacts.

Import Extractor.

Implicit Types (articles : list article) (s : string).

Lemma truthy_false s : Py.truthy s = false → s = "".
Proof. by destruct s. Qed.

Lemma origin_is_absolute s : Py.startswith (IMAS_ORIGIN +:+ s) "http" = true.
Proof. reflexivity. Qed.

Lemma https_is_absolute s : Py.startswith ("https:" +:+ s) "http" = true.
Proof. reflexivity. Qed.

Lemma resolve_news_url_absolute s :
  resolve_news_url s = "" ∨ Py.startswith (resolve_news_url s) "http" = true.
Proof.
  unfold resolve_news_url.
  destruct (Py.truthy s) eqn:Ht; [|left; simpl; by apply truthy_false].
  destruct (Py.startswith s "http") eqn:Hh; simpl; [by right|].
  right. exact (origin_is_absolute s).
Qed.

Lemma resolve_img_url_absolute s :
  resolve_img_url s = "" ∨ Py.startswith (resolve_img_url s) "http" = true.
Proof.
  unfold resolve_img_url.
  destruct (Py.truthy s) eqn:Ht; [|left; simpl; by apply truthy_false].
  destruct (Py.startswith s "http") eqn:Hh; simpl; [by right|].
  right. destruct (Py.startswith s "//");
    [exact (https_is_absolute s)|exact (origin_is_absolute s)].
Qed.

Lemma length_omap_le {A B} (f : A → option B) (l : list A) :
  (length (omap f l) ≤ length l)%nat.
Proof.
  induction l as [|a l IH]; csimpl; [lia|]. destruct (f a); simpl; lia.
Qed.

Lemma get_latest_news_omap articles :
  _get_latest_news (Some articles) = omap parse_article (take 10 articles).
Proof. by destruct articles. Qed.

(** X12: [_get_latest_news] returns at most ten items and never more than
    there are cards; without a page or without cards it returns nothing;
    cards after the tenth are never looked at. *)
Theorem get_latest_news_is_capped :
  forall (articles more : list article),
    (length (_get_latest_news (Some articles)) ≤ 10)%nat ∧
    (length (_get_latest_news (Some articles)) ≤ length articles)%nat ∧
    _get_latest_news None = [] ∧
    _get_latest_news (Some []) = [] ∧
    ((10 ≤ length articles)%nat →
     _get_latest_news (Some (articles ++ more)%list)
       = _get_latest_news (Some articles)).
Proof.
  intros articles more. rewrite !get_latest_news_omap.
  pose proof (length_omap_le parse_article (take 10 articles)) as Hle.
  rewrite length_take in Hle.
  split; [lia|]. split; [lia|]. split; [done|]. split; [done|].
  intros Hlen. by rewrite take_app_le.
Qed.

(** X13: a card without a title link is skipped and the cards around it are
    extracted as if it were not there, as long as the page has at most ten
    cards (the cut to ten comes before the skip). *)
Theorem card_without_title_is_skipped :
  forall (before after : list article) (bad : article),
    title_link bad = None →
    (length before + 1 + length after ≤ 10)%nat →
    _get_latest_news (Some (before ++ bad :: after)%list)
      = _get_latest_news (Some (before ++ after)%list).
Proof.
  intros before after bad Hbad Hlen. rewrite !get_latest_news_omap.
  rewrite !take_ge by (rewrite length_app; simpl; lia).
  rewrite !omap_app. simpl. unfold parse_article at 2. by rewrite Hbad.
Qed.

(** X14: every extracted item has its detail URL as id, and its detail URL
    and media URL are each empty or begin with [http]. *)
Theorem extracted_urls_are_absolute :
  forall (page : option (list article)) (item : Item),
    item ∈ _get_latest_news page →
    news_id item = url item ∧
    (url item = "" ∨ Py.startswith (url item) "http" = true) ∧
    (img_url item = "" ∨ Py.startswith (img_url item) "http" = true).
Proof.
  intros [articles|] item Hin; [|by apply elem_of_nil in Hin].
  rewrite get_latest_news_omap in Hin.
  apply list_elem_of_omap in Hin as (a & _ & Hparse).
  unfold parse_article in Hparse.
  destruct (title_link a) as [tl|]; [|done]. injection Hparse as <-. simpl.
  split; [done|]. split; [apply resolve_news_url_absolute|].
  destruct (img_link a) as [[img_elem|]|]; [|by left|by left].
  apply resolve_img_url_absolute.
Qed.

(** X15: normalizing twice changes nothing more, for the detail URL and for
    the media URL. *)
Theorem resolve_url_idempotent :
  forall (s : string),
    resolve_news_url (resolve_news_url s) = resolve_news_url s ∧
    resolve_img_url (resolve_img_url s) = resolve_img_url s.
Proof.
  intros s. split.
  - destruct (resolve_news_url_absolute s) as [He|Hh];
      unfold resolve_news_url at 1; [by rewrite He|by rewrite Hh, andb_false_r].
  - destruct (resolve_img_url_absolute s) as [He|Hh];
      unfold resolve_img_url at 1; [by rewrite He|by rewrite Hh, andb_false_r].
Qed.

End ExtractorFacts.

Lemma get_latest_news_is_capped_witness :
  Extractor._get_latest_news
    (Some (replicate 10 Sample.protocol_relative_card
             ++ [Extractor.mkArticle None None None])%list)
  = Extractor._get_latest_news (Some (replicate 10 Sample.protocol_relative_card)).
Proof.
  destruct (get_latest_news_is_capped (replicate 10 Sample.protocol_relative_card)
              [Extractor.mkArticle None None None]) as (_ & _ & _ & _ & Hcap).
  apply Hcap. simpl. lia.
Defined.

Lemma card_without_title_is_skipped_witness :
  Extractor._get_latest_news
    (Some ([Sample.protocol_relative_card]
             ++ Extractor.mkArticle None (Some "2024.05.02") None
                  :: [Sample.protocol_relative_card])%list)
  = Extractor._get_latest_news
      (Some ([Sample.protocol_relative_card] ++ [Sample.protocol_relative_card])%list).
Proof.
  apply card_without_title_is_skipped; [reflexivity|simpl; lia].
Defined.

Lemma extracted_urls_are_absolute_witness :
  Py.startswith "https://cdn.example/1.jpg" "http" = true.
Proof.
  destruct (extracted_urls_are_absolute (Some [Sample.protocol_relative_card])
              (mkItem "https://idolmaster-official.jp//idolmaster-official.jp/news/01"
                 "T1" "2024.05.01"
                 "https://idolmaster-official.jp//idolmaster-official.jp/news/01"
                 "https://cdn.example/1.jpg"))
    as (_ & _ & [Hempty|Habs]).
  - apply (bool_decide_unpack _). vm_compute. exact I.
  - discriminate Hempty.
  - exact Habs.
Defined.

(** ** The manual command *)

Section CommandFacts.

Variable hash : string -> Z.
Variable img_dir : string.
Variable HTTPX_AVAILABLE : bool.

Implicit Types (st : State) (news_list : list Item) (io : nat -> download_io).

Lemma reply_loop_replies io items :
  forall i st,
    Forall2 (reply_for hash img_dir) items
      (reply_loop hash img_dir HTTPX_AVAILABLE io i items st).1.
Proof.
  induction items as [|item rest IH]; intros i st; simpl.
  - constructor.
  - unfold bind.
    pose proof (format_news_shape hash img_dir HTTPX_AVAILABLE (io i) item st) as Hshape.
    destruct (_format_news _ _ _ (io i) item st) as [chain st1].
    specialize (IH (S i) st1).
    destruct (reply_loop _ _ _ io (S i) rest st1) as [replies st2].
    simpl in *. constructor; [|done]. by exists chain.
Qed.

Lemma reply_loop_caches io items :
  forall i st,
    same_caches st (reply_loop hash img_dir HTTPX_AVAILABLE io i items st).2.
Proof.
  induction items as [|item rest IH]; intros i st; simpl.
  - by repeat split.
  - unfold bind.
    pose proof (format_news_caches hash img_dir HTTPX_AVAILABLE (io i) item st) as H1.
    destruct (_format_news _ _ _ (io i) item st) as [chain st1].
    specialize (IH (S i) st1).
    destruct (reply_loop _ _ _ io (S i) rest st1) as [replies st2].
    simpl in *. destruct H1 as (? & ? & ?), IH as (? & ? & ?).
    repeat split; congruence.
Qed.

Lemma send_imas_news_unfold news_list o io st :
  send_imas_news hash img_dir HTTPX_AVAILABLE news_list o io st =
    let st1 := polled news_list o st in
    match item_cache st1 with
    | [] => ([PlainResult "暂无 IM@S 新闻"], st1)
    | _ => reply_loop hash img_dir HTTPX_AVAILABLE io 0 (take 3 (item_cache st1)) st1
    end.
Proof.
  unfold send_imas_news, polled, bind, get_state.
  destruct (item_cache st) as [|item rest] eqn:Hc.
  - destruct (_check_update news_list o st) as [new_items st1].
    cbn [snd fst]. unfold ret at 1. by destruct (item_cache st1).
  - unfold ret at 1. by rewrite Hc.
Qed.

Lemma send_imas_news_item_cache news_list o io st :
  item_cache (send_imas_news hash img_dir HTTPX_AVAILABLE news_list o io st).2
    = item_cache (polled news_list o st).
Proof.
  rewrite send_imas_news_unfold. cbv zeta.
  destruct (item_cache (polled news_list o st)) as [|item rest] eqn:Hc; [done|].
  destruct (reply_loop_caches io (take 3 (item :: rest)) 0 (polled news_list o st))
    as (_ & -> & _). done.
Qed.

(** X16: the command always answers: one plain "no news" line when
    [item_cache] is empty even after its poll, otherwise one chain for each
    of the first three retained items, in their order; between one and
    three answers in all. *)
Theorem send_imas_news_answers :
  forall (st : State) (news_list : list Item) (o : save_outcome)
         (io : nat -> download_io),
    let r := send_imas_news hash img_dir HTTPX_AVAILABLE news_list o io st in
    (item_cache r.2 = [] → r.1 = [PlainResult "暂无 IM@S 新闻"]) ∧
    (item_cache r.2 ≠ [] →
     Forall2 (reply_for hash img_dir) (take 3 (item_cache r.2)) r.1) ∧
    (1 ≤ length r.1 ≤ 3)%nat.
Proof.
  intros st news_list o io r.
  assert (Hit : item_cache r.2 = item_cache (polled news_list o st))
    by apply send_imas_news_item_cache.
  subst r. rewrite Hit. rewrite send_imas_news_unfold. cbv zeta.
  destruct (item_cache (polled news_list o st)) as [|item rest] eqn:Hc.
  - simpl. split; [done|]. split; [done|lia].
  - pose proof (reply_loop_replies io (take 3 (item :: rest)) 0
                  (polled news_list o st)) as HF.
    split; [done|]. split; [done|].
    apply Forall2_length in HF. rewrite <- HF, length_take. cbn [length]. lia.
Qed.

(** X17: while something is retained the command never polls: its answers
    and its effect do not depend on what the site holds, and both caches
    and the cache file stay as they are. *)
Theorem send_imas_news_does_not_poll :
  forall (st : State) (news_list news_list' : list Item) (o o' : save_outcome)
         (io : nat -> download_io),
    item_cache st ≠ [] →
    send_imas_news hash img_dir HTTPX_AVAILABLE news_list o io st
      = send_imas_news hash img_dir HTTPX_AVAILABLE news_list' o' io st ∧
    same_caches st
      (send_imas_news hash img_dir HTTPX_AVAILABLE news_list o io st).2.
Proof.
  intros st news_list news_list' o o' io Hne.
  assert (Hp : forall nl oo, polled nl oo st = st).
  { intros nl oo. unfold polled. by destruct (item_cache st). }
  rewrite !send_imas_news_unfold. cbv zeta. rewrite !Hp. split; [done|].
  destruct (item_cache st) as [|item rest]; [done|].
  apply reply_loop_caches.
Qed.

(** X18: in a coherent state the command says "no news" only when there is
    none: it answers with the plain line exactly when nothing is retained
    and the poll brought no candidate. *)
Theorem send_imas_news_no_news_iff :
  forall (st : State) (news_list : list Item) (o : save_outcome)
         (io : nat -> download_io),
    coherent st →
    (send_imas_news hash img_dir HTTPX_AVAILABLE news_list o io st).1
      = [PlainResult "暂无 IM@S 新闻"]
    ↔ item_cache st = [] ∧ news_list = [].
Proof.
  intros st news_list o io [[_ Hempty] _].
  rewrite send_imas_news_unfold. cbv zeta. split.
  - intros Hr.
    destruct (item_cache (polled news_list o st)) as [|item rest] eqn:Hc.
    + unfold polled in Hc. destruct (item_cache st) as [|x xs] eqn:Hst; [|congruence].
      split; [done|]. destruct news_list as [|n nl]; [done|]. exfalso.
      destruct (check_update_cold st (n :: nl) o (Hempty eq_refl))
        as (_ & _ & Hit & _); [done|].
      rewrite Hit in Hc. done.
    + pose proof (reply_loop_replies io (take 3 (item :: rest)) 0
                    (polled news_list o st)) as HF.
      rewrite Hr in HF. simpl in HF.
      apply Forall2_cons_1 in HF as [(chain & Hrep & _) _]. done.
  - intros [Hst ->]. unfold polled. rewrite Hst. simpl. by rewrite Hst.
Qed.

End CommandFacts.

Lemma send_imas_news_answers_witness :
  (send_imas_news Sample.len_hash "/data/imas_news/images" true
     [] SaveOk (fun _ => Sample.offline) fresh).1 = [PlainResult "暂无 IM@S 新闻"].
Proof.
  destruct (send_imas_news_answers Sample.len_hash "/data/imas_news/images" true
              fresh [] SaveOk (fun _ => Sample.offline)) as (Hnone & _).
  apply Hnone. reflexivity.
Defined.

Lemma send_imas_news_does_not_poll_witness :
  send_imas_news Sample.len_hash "/data/imas_news/images" true
    [Sample.A; Sample.Old] SaveOk (fun _ => Sample.offline) Sample.warm
  = send_imas_news Sample.len_hash "/data/imas_news/images" true
      [] SaveDumpRaises (fun _ => Sample.offline) Sample.warm.
Proof.
  destruct (send_imas_news_does_not_poll Sample.len_hash "/data/imas_news/images" true
              Sample.warm [Sample.A; Sample.Old] [] SaveOk SaveDumpRaises
              (fun _ => Sample.offline)) as [Hsame _].
  - discriminate.
  - exact Hsame.
Defined.

Lemma send_imas_news_no_news_iff_witness :
  (send_imas_news Sample.len_hash "/data/imas_news/images" true
     [] SaveOk (fun _ => Sample.offline) fresh).1 = [PlainResult "暂无 IM@S 新闻"].
Proof.
  apply (send_imas_news_no_news_iff Sample.len_hash "/data/imas_news/images" true
           fresh [] SaveOk (fun _ => Sample.offline) fresh_coherent).
  split; reflexivity.
Defined.

(** ** Cycles that push nothing *)

Section SilentCycles.

Variable hash : string -> Z.
Variable img_dir : string.
Variable HTTPX_AVAILABLE : bool.

Lemma check_update_img_files news_list o st :
  img_files (_check_update news_list o st).2 = img_files st.
Proof.
  rewrite check_update_unfold. cbv zeta.
  destruct (filter _ news_list); [done|]. by destruct o.
Qed.

(** X19: downloads and the janitor only run in cycles that push something:
    when [_check_news_update] pushes nothing, be it a first run or a poll
    without news, the image directory is exactly as before. *)
Theorem silent_cycle_leaves_images :
  forall (st : State) (news_list : list Item) (o : save_outcome)
         (io : nat -> download_io) (os_remove : string -> bool),
    let r := _check_news_update hash img_dir HTTPX_AVAILABLE
               news_list o io os_remove st in
    r.1 = [] → img_files r.2 = img_files st.
Proof.
  intros st news_list o io os_remove r Hsilent. subst r.
  destruct (decide (idx_cache st = ∅)) as [Hcold|Hwarm].
  - clear Hsilent. unfold _check_news_update, bind, get_state.
    destruct (decide (idx_cache st = ∅)) as [_|]; [|done].
    pose proof (check_update_img_files news_list o st) as Himg.
    by destruct (_check_update news_list o st).
  - rewrite check_news_update_warm in Hsilent by done.
    pose proof (push_loop_pushes hash img_dir HTTPX_AVAILABLE io
                  (rev (filter (novel (idx_cache st)) news_list)) 0
                  (_check_update news_list o st).2) as HF.
    rewrite Hsilent in HF. apply Forall2_nil_inv_r in HF.
    apply (f_equal (@rev Item)) in HF. rewrite rev_involutive in HF. simpl in HF.
    unfold _check_news_update, bind, get_state.
    destruct (decide (idx_cache st = ∅)) as [|_]; [done|].
    pose proof (check_update_unfold news_list o st) as Hcu. cbv zeta in Hcu.
    rewrite HF in Hcu. by rewrite Hcu.
Qed.

End SilentCycles.

Lemma silent_cycle_leaves_images_witness :
  img_files
    (_check_news_update Sample.len_hash "/data/imas_news/images" true
       [Sample.B] SaveOk (fun _ => Sample.disk_full) (fun _ => true)
       (set_img_files (img_files Sample.with_orphan) fresh)).2
  = img_files Sample.with_orphan.
Proof.
  apply (silent_cycle_leaves_images Sample.len_hash "/data/imas_news/images" true
           (set_img_files (img_files Sample.with_orphan) fresh) [Sample.B] SaveOk
           (fun _ => Sample.disk_full) (fun _ => true)).
  reflexivity.
Defined.

(** ** C5: the retention bound and the source of the retained items *)

Section RetainedItems.

Variable hash : string -> Z.
Variable img_dir : string.
Variable HTTPX_AVAILABLE : bool.

Implicit Types (st : State) (news_list : list Item) (evs : list event).

(** A poll that finds nothing novel leaves the state as it is. *)
Lemma check_update_no_change news_list o st :
  (forall news, news ∈ news_list → news_id news ∈ idx_cache st) →
  (_check_update news_list o st).2 = st.
Proof.
  intros Hseen. rewrite check_update_unfold. cbv zeta.
  by rewrite filter_novel_nil.
Qed.

Lemma step_no_change st ev :
  no_change (idx_cache st) ev →
  idx_cache (step hash img_dir HTTPX_AVAILABLE st ev) = idx_cache st ∧
  item_cache (step hash img_dir HTTPX_AVAILABLE st ev) = item_cache st.
Proof.
  destruct ev as [| |o|news_list o|news_list o io os_remove]; simpl; try done.
  - intros _. by destruct o.
  - intros Hseen. by rewrite check_update_no_change.
  - intros Hseen.
    destruct (check_news_update_caches hash img_dir HTTPX_AVAILABLE
                news_list o io os_remove st) as (Hi & Hit & _).
    rewrite Hi, Hit. by rewrite check_update_no_change.
Qed.

Lemma run_no_change evs :
  forall st,
    Forall (no_change (idx_cache st)) evs →
    item_cache (run hash img_dir HTTPX_AVAILABLE st evs) = item_cache st.
Proof.
  induction evs as [|ev evs IH]; intros st Hall; [done|].
  apply Forall_cons in Hall as [Hev Hall]. simpl.
  destruct (step_no_change st ev Hev) as [Hi Hit].
  rewrite IH; [done|]. by rewrite Hi.
Qed.

(** A poll that finds something novel retains the head of its batch. *)
Lemma step_poll_replaces st ev news_list o :
  poll_of ev = Some (news_list, o) →
  (_check_update news_list o st).1 ≠ [] →
  item_cache (step hash img_dir HTTPX_AVAILABLE st ev) = take 5 news_list.
Proof.
  intros Hpoll Hne.
  assert (Hupd : item_cache (_check_update news_list o st).2 = take 5 news_list).
  { revert Hne. rewrite check_update_unfold. cbv zeta.
    destruct (filter _ news_list) as [|x xs]; [done|]. intros _. cbn [snd].
    by destruct o. }
  destruct ev as [| |o'|nl o'|nl o' io os_remove]; simpl in Hpoll; try done;
    injection Hpoll as -> ->; simpl; [done|].
  destruct (check_news_update_caches hash img_dir HTTPX_AVAILABLE
              news_list o io os_remove st) as (_ & -> & _). done.
Qed.

(** C5 (as the code has it): along any history of constructor, load, save,
    diff and cycle calls that starts with at most five items in
    [item_cache] and in the cache file, [item_cache] never holds more than
    five items.  A poll that finds a novel item replaces [item_cache] by
    the first five candidates of its batch, in their order, and later
    saves and polls of the same process that bring nothing new leave that
    list in place; [_load_cache] replaces it by the list of the cache file
    as it is. *)
Theorem item_cache_bound_and_source :
  forall (st0 : State) (evs : list event),
    (length (item_cache st0) ≤ 5)%nat →
    (length (file_items (cache_file st0)) ≤ 5)%nat →
    let st := run hash img_dir HTTPX_AVAILABLE st0 evs in
    (length (item_cache st) ≤ 5)%nat ∧
    (length (file_items (cache_file st)) ≤ 5)%nat ∧
    (forall ev news_list o later,
       poll_of ev = Some (news_list, o) →
       (_check_update news_list o st).1 ≠ [] →
       let st1 := step hash img_dir HTTPX_AVAILABLE st ev in
       Forall (no_change (idx_cache st1)) later →
       item_cache (run hash img_dir HTTPX_AVAILABLE st1 later) = take 5 news_list) ∧
    (forall later,
       Forall (no_change (idx_cache st)) later →
       item_cache (run hash img_dir HTTPX_AVAILABLE st later) = item_cache st) ∧
    (forall data,
       cache_file st = Json data →
       item_cache (_load_cache st).2 = default [] (json_item_cache data)).
Proof.
  intros st0 evs Hmem Hfile st.
  assert (Hs : sourced [item_cache st0; file_items (cache_file st0)] [] st0).
  { split; right; left; set_solver. }
  apply (run_sourced hash img_dir HTTPX_AVAILABLE _ evs) in Hs. simpl in Hs.
  fold st in Hs. destruct Hs as [Hi Hf].
  assert (Hk : Forall (fun l : list Item => (length l ≤ 5)%nat)
                 [item_cache st0; file_items (cache_file st0)]).
  { apply Forall_cons. split; [done|]. apply Forall_cons. split; [done|].
    apply Forall_nil. done. }
  split; [exact (retained_source_bound _ _ _ Hk Hi)|].
  split; [exact (retained_source_bound _ _ _ Hk Hf)|].
  split; [|split].
  - intros ev news_list o later Hpoll Hne st1 Hquiet.
    rewrite run_no_change by done. subst st1. by eapply step_poll_replaces.
  - intros later Hquiet. by apply run_no_change.
  - intros data Hc. unfold _load_cache, bind, get_state. by rewrite Hc.
Qed.

End RetainedItems.

Lemma item_cache_bound_and_source_witness :
  (length (item_cache (run Sample.len_hash "/data/imas_news/images" true
                         fresh Sample.history)) ≤ 5)%nat ∧
  item_cache
    (run Sample.len_hash "/data/imas_news/images" true
       (step Sample.len_hash "/data/imas_news/images" true
          (run Sample.len_hash "/data/imas_news/images" true fresh Sample.history)
          (EvCheckUpdate [Sample2.Late; Sample.A] SaveOk))
       [EvSave SaveDumpRaises; EvCheckUpdate [Sample.A; Sample2.Late] SaveOk])
  = take 5 [Sample2.Late; Sample.A].
Proof.
  destruct (item_cache_bound_and_source Sample.len_hash "/data/imas_news/images" true
              fresh Sample.history) as (Hbound & _ & Hlatest & _).
  - simpl. lia.
  - simpl. lia.
  - split; [exact Hbound|].
    apply (Hlatest (EvCheckUpdate [Sample2.Late; Sample.A] SaveOk)
             [Sample2.Late; Sample.A] SaveOk).
    + reflexivity.
    + vm_compute. discriminate.
    + apply Forall_cons. split; [exact I|].
      apply Forall_cons. split; [|by apply Forall_nil].
      intros news Hin.
      repeat (apply elem_of_cons in Hin as [->|Hin]);
        try (apply (bool_decide_unpack _); vm_compute; exact I).
      by apply elem_of_nil in Hin.
Defined.

(** C5 as stated fails twice: a cache file that lists six items is restored
    as it is by [_load_cache], and after a poll without novel items whose
    page order differs, [item_cache] still has the order of the earlier
    poll, not that of the latest fetch. *)
Lemma item_cache_claim_fails :
  ¬ (forall (st0 : State) (evs : list event),
       item_cache st0 = [] →
       (length (item_cache (run Sample.len_hash "/data/imas_news/images" true
                              st0 evs)) ≤ 5)%nat) ∧
  ¬ (forall (evs : list event) (news_list : list Item),
       last (fetched evs) = Some news_list → news_list ≠ [] →
       item_cache (run Sample.len_hash "/data/imas_news/images" true fresh evs)
         = take 5 news_list).
Proof.
  split.
  - intros H. specialize (H Sample2.six_in_file [EvInit; EvLoad] eq_refl).
    vm_compute in H. lia.
  - intros H.
    specialize (H [EvCheckUpdate [Sample.A; Sample.B; Sample.C] SaveOk;
                   EvCheckUpdate [Sample.C; Sample.B; Sample.A] SaveOk]
                  [Sample.C; Sample.B; Sample.A] eq_refl).
    assert (Hne : [Sample.C; Sample.B; Sample.A] ≠ []) by discriminate.
    specialize (H Hne). vm_compute in H. discriminate H.
Qed.
